(** * Timeline Media Renamer: a shallow embedding of [#TimelineMediaRenamer.js]

    The development follows the script: the configuration tables of
    [TimelineMediaRenamerSettings], the capture-date resolver
    [#getCaptureDate], the formatter [#formatDate], the name generator
    [#getNewFilePath], the per-file driver [#renameFiles] with
    [#safeRenameFile], and [PerformanceWrapper.#formatPerformance].

    The script calls three libraries whose behaviour the claims depend on:
    Node's [path] and [fs], the JavaScript [Date] parser and Luxon's
    [DateTime].  They are modelled in the module [Lib] below, on the
    inputs the script gives them. *)

From Stdlib Require Import ZArith Lia Ascii String List.
From stdpp Require Import base gmap strings list pretty.

Import ListNotations.

(* ================================================================= *)
(** ** Strings and numbers as JavaScript prints them *)

Module Str.

(** [String(n)] for an integer [n]. *)
Definition of_Z (z : Z) : string :=
  if (z <? 0)%Z then "-" +:+ pretty (Z.to_N (- z)) else pretty (Z.to_N z).

(** ["0".repeat(k)] *)
Fixpoint zeros (k : nat) : string :=
  match k with O => "" | S k' => String "0" (zeros k') end.

(** [s.padStart(len, '0')] *)
Definition pad_start (s : string) (len : nat) : string :=
  zeros (len - String.length s) +:+ s.

(** [toLowerCase] on UTF-8 text, for the characters whose lower case is
    ASCII: the ASCII capitals, and the KELVIN SIGN U+212A (bytes E2 84 AA),
    which lower-cases to [k].  Other characters are kept; the lower case of
    any of them that has one is not ASCII, so the result's comparisons with
    the script's tables, all ASCII, are those of JavaScript. *)
Definition lower_char (c : ascii) : ascii :=
  let n := nat_of_ascii c in
  if (65 <=? n)%nat && (n <=? 90)%nat then ascii_of_nat (n + 32) else c.

Fixpoint to_lower (s : string) : string :=
  match s with
  | String "226"%char (String "132"%char (String "170"%char s')) => String "k" (to_lower s')
  | String c s' => String (lower_char c) (to_lower s')
  | EmptyString => EmptyString
  end.

(** [s.endsWith(t)] and substring search, used to state properties. *)
Definition contains (s t : string) : Prop :=
  exists a b, s = a +:+ t +:+ b.

End Str.

(* ================================================================= *)
(** ** Configuration: [TimelineMediaRenamerSettings] *)

Module Settings.

Definition IGNORED_DIRECTORIES : list string := ["#Ignored"; "node_modules"].

Definition IGNORED_FILES : list string :=
  ["#TimelineMediaRenamer.bat"; "#TimelineMediaRenamer.js"; "#TimelineMediaSorter.bat";
   "#TimelineMediaSorter.js"; "package.json"; "package-lock.json"].

Definition PHOTO_EXTENSIONS : list string :=
  [".jpg"; ".jpeg"; ".png"; ".gif"; ".bmp"; ".tiff"; ".tif"; ".heic"; ".heif";
   ".webp"; ".raw"; ".arw"; ".cr2"; ".nef"; ".orf"; ".sr2"; ".dng"; ".rw2"; ".raf";
   ".psd"; ".xcf"; ".ai"; ".indd"; ".svg"; ".eps"; ".pdf"; ".lrtemplate"; ".xmp"].

Definition VIDEO_EXTENSIONS : list string :=
  [".3gp"; ".mp4"; ".mov"; ".avi"; ".mkv"; ".webm"; ".flv"; ".wmv"; ".mpeg"; ".mpg";
   ".m4v"; ".mts"; ".m2ts"; ".vob"; ".rm"; ".rmvb"; ".asf"; ".divx"; ".xvid"; ".ogv";
   ".ts"; ".mxf"; ".f4v"; ".m2v"; ".mpv"; ".qt"; ".mng"; ".yuv"; ".y4m"; ".drc";
   ".f4p"; ".f4a"; ".f4b"].

Definition EXIF_DATES_LOCAL : list string :=
  ["DateTimeOriginal"; "DateTimeCreated"; "DateCreated"; "DigitalCreationDateTime"].

Definition EXIF_DATES_ZONED : list string :=
  ["CreationDate"; "CreateDate"; "ContentCreateDate"; "MediaCreateDate"; "ModifyDate"].

(** [Array.prototype.includes] on a list of strings. *)
Definition includes (l : list string) (x : string) : bool :=
  existsb (fun y => bool_decide (y = x)) l.

End Settings.

(* ================================================================= *)
(** ** Libraries the script calls *)

Module Lib.

Open Scope Z_scope.

(** *** Proleptic Gregorian calendar arithmetic

    Luxon turns calendar components into an epoch instant with
    [Date.UTC] ([objToLocalTS]) and back with the [getUTC*] getters
    ([tsToObj]); both are the proleptic Gregorian calendar, written here
    with the usual day-count formulas. *)

Record comps := Comps {
  c_year : Z; c_month : Z; c_day : Z;
  c_hour : Z; c_minute : Z; c_second : Z; c_millisecond : Z }.

Definition days_from_civil (y m d : Z) : Z :=
  let y' := if m <=? 2 then y - 1 else y in
  let era := y' / 400 in
  let yoe := y' - era * 400 in
  let mp := (m + 9) mod 12 in
  let doy := (153 * mp + 2) / 5 + d - 1 in
  let doe := yoe * 365 + yoe / 4 - yoe / 100 + doy in
  era * 146097 + doe - 719468.

Definition civil_from_days (z : Z) : Z * Z * Z :=
  let z' := z + 719468 in
  let era := z' / 146097 in
  let doe := z' - era * 146097 in
  let yoe := (doe - doe / 1460 + doe / 36524 - doe / 146096) / 365 in
  let doy := doe - (365 * yoe + yoe / 4 - yoe / 100) in
  let mp := (5 * doy + 2) / 153 in
  let d := doy - (153 * mp + 2) / 5 + 1 in
  let m := if mp <? 10 then mp + 3 else mp - 9 in
  (if m <=? 2 then yoe + era * 400 + 1 else yoe + era * 400, m, d).

Definition ms_per_day : Z := 86400000.

(** [objToLocalTS]: the components read as if they were UTC. *)
Definition obj_to_local_ts (c : comps) : Z :=
  days_from_civil (c_year c) (c_month c) (c_day c) * ms_per_day
  + c_hour c * 3600000 + c_minute c * 60000 + c_second c * 1000 + c_millisecond c.

(** [tsToObj(ts, offset)]: the components of [ts] shifted by [offset]
    minutes. *)
Definition ts_to_obj (ts o : Z) : comps :=
  let t := ts + o * 60000 in
  let days := t / ms_per_day in
  let tod := t mod ms_per_day in
  match civil_from_days days with
  | (y, m, d) =>
      Comps y m d (tod / 3600000) ((tod mod 3600000) / 60000)
            ((tod mod 60000) / 1000) (tod mod 1000)
  end.

Definition is_leap (y : Z) : bool :=
  ((y mod 4 =? 0) && negb (y mod 100 =? 0)) || (y mod 400 =? 0).

Definition days_in_month (y m : Z) : Z :=
  match m with
  | 2 => if is_leap y then 29 else 28
  | 4 | 6 | 9 | 11 => 30
  | _ => 31
  end.

Definition between (x lo hi : Z) : bool := (lo <=? x) && (x <=? hi).

(** [hasInvalidGregorianData] and [hasInvalidTimeData], negated. *)
Definition valid_comps (c : comps) : bool :=
  between (c_month c) 1 12
  && between (c_day c) 1 (days_in_month (c_year c) (c_month c))
  && (between (c_hour c) 0 23
      || ((c_hour c =? 24) && (c_minute c =? 0) && (c_second c =? 0)
          && (c_millisecond c =? 0)))
  && between (c_minute c) 0 59
  && between (c_second c) 0 59
  && between (c_millisecond c) 0 999.

(** *** The machine and its time-zone database *)

Record Env := MkEnv {
  (** time zones [Intl] knows, with their offsets (minutes) at an instant *)
  env_tzdb : string -> option (Z -> Z);
  (** [Intl.DateTimeFormat().resolvedOptions().timeZone] *)
  env_local_name : string;
  (** the offset of the system zone, [-new Date(ts).getTimezoneOffset()] *)
  env_local_offset : Z -> Z;
  (** [Settings.now()] *)
  env_now : Z }.

(** Luxon's zones: [FixedOffsetZone], [SystemZone], [IANAZone] and an
    invalid zone. *)
Inductive zone :=
  | ZFixed (off : Z)
  | ZSystem
  | ZIana (name : string) (off : Z -> Z)
  | ZInvalid.

Definition zone_offset (env : Env) (z : zone) (ts : Z) : Z :=
  match z with
  | ZFixed o => o
  | ZSystem => env_local_offset env ts
  | ZIana _ f => f ts
  | ZInvalid => 0
  end.

(** a [Date] holds the instants within 8.64e15 ms of the epoch
    ([TimeClip]); beyond, its time value is NaN *)
Definition max_time : Z := 8640000000000000.

Definition time_clip (t : Z) : option Z :=
  if Z.abs t <=? max_time then Some t else None.

(** [zone.offset(ts)], with NaN as [None]: the system zone
    ([-new Date(ts).getTimezoneOffset()]) and an IANA zone read a [Date]
    at [ts], which is invalid out of range; an invalid zone gives NaN *)
Definition zone_offset_nan (env : Env) (z : zone) (ts : Z) : option Z :=
  match z with
  | ZFixed o => Some o
  | ZSystem | ZIana _ _ =>
      match time_clip ts with Some t => Some (zone_offset env z t) | None => None end
  | ZInvalid => None
  end.

(** [zone.equals(other)] *)
Definition zone_equals (z1 z2 : zone) : bool :=
  match z1, z2 with
  | ZFixed a, ZFixed b => a =? b
  | ZSystem, ZSystem => true
  | ZIana a _, ZIana b _ => bool_decide (a = b)
  | _, _ => false
  end.

(** [formatOffset(offset, "narrow")], the name of a fixed-offset zone *)
Definition format_offset_narrow (o : Z) : string :=
  let hours := Z.abs o / 60 in
  let minutes := Z.abs o mod 60 in
  (if o >=? 0 then "+" else "-") +:+ Str.of_Z hours
  +:+ (if minutes >? 0 then ":" +:+ Str.pad_start (Str.of_Z minutes) 2 else "").

(** [formatOffset(offset, "short")], Luxon's [ZZ] token *)
Definition format_offset_short (o : Z) : string :=
  let hours := Z.abs o / 60 in
  let minutes := Z.abs o mod 60 in
  (if o >=? 0 then "+" else "-") +:+ Str.pad_start (Str.of_Z hours) 2
  +:+ ":" +:+ Str.pad_start (Str.of_Z minutes) 2.

(** [zone.name] *)
Definition zone_name (env : Env) (z : zone) : string :=
  match z with
  | ZFixed 0 => "UTC"
  | ZFixed o => "UTC" +:+ format_offset_narrow o
  | ZSystem => env_local_name env
  | ZIana n _ => n
  | ZInvalid => ""
  end.

(** *** Luxon's [DateTime]

    A valid [DateTime] holds its instant [ts], its zone and the offset
    [o] it was built with; its calendar components are [tsToObj(ts, o)].
    [None] is an invalid [DateTime]. *)

Record dtime := DT { dt_ts : Z; dt_zone : zone; dt_o : Z }.

Definition DateTime := option dtime.

Definition dt_comps (d : dtime) : comps := ts_to_obj (dt_ts d) (dt_o d).

(** [FixedOffsetZone.parseSpecifier]: [/^utc(?:([+-]\d{1,2})(?::(\d{2}))?)?$/i]
    on a lower-cased name, with [signedOffset]. *)
Definition digit (c : ascii) : option Z :=
  let n := nat_of_ascii c in
  if (48 <=? n)%nat && (n <=? 57)%nat then Some (Z.of_nat n - 48) else None.

Definition sign_of (c : ascii) : option Z :=
  if bool_decide (c = "+"%char) then Some 1
  else if bool_decide (c = "-"%char) then Some (-1) else None.

Definition parse_specifier (s : string) : option Z :=
  match list_ascii_of_string s with
  | ["u"; "t"; "c"]%char => Some 0
  | "u"%char :: "t"%char :: "c"%char :: sg :: rest =>
      match sign_of sg with
      | None => None
      | Some sgn =>
          let hm h m := Some (sgn * (h * 60 + m)) in
          match rest with
          | [h1] => match digit h1 with Some a => hm a 0 | None => None end
          | [h1; h2] =>
              match digit h1, digit h2 with
              | Some a, Some b => hm (10 * a + b) 0 | _, _ => None end
          | [h1; ":"%char; m1; m2] =>
              match digit h1, digit m1, digit m2 with
              | Some a, Some c, Some d => hm a (10 * c + d) | _, _, _ => None end
          | [h1; h2; ":"%char; m1; m2] =>
              match digit h1, digit h2, digit m1, digit m2 with
              | Some a, Some b, Some c, Some d => hm (10 * a + b) (10 * c + d)
              | _, _, _, _ => None end
          | _ => None
          end
      end
  | _ => None
  end.

(** [normalizeZone(input, Settings.defaultZone)] for [undefined] or a
    string; the default zone is the system zone. *)
Definition normalize_zone (env : Env) (input : option string) : zone :=
  match input with
  | None => ZSystem
  | Some s =>
      let lowered := Str.to_lower s in
      if bool_decide (lowered = "default") then ZSystem
      else if bool_decide (lowered = "local") || bool_decide (lowered = "system") then ZSystem
      else if bool_decide (lowered = "utc") || bool_decide (lowered = "gmt") then ZFixed 0
      else match parse_specifier lowered with
           | Some o => ZFixed o
           | None =>
               match env_tzdb env s with
               | Some f => ZIana s f
               | None => ZInvalid
               end
           end
  end.

(** [fixOffset(localTS, o, tz)]; [None] when the instant it returns is
    NaN, which happens as soon as [o2] or [o3] is NaN ([o === o2] and
    [o2 === o3] fail, and [Math.min] of NaN is NaN) *)
Definition fix_offset (env : Env) (local_ts o : Z) (tz : zone) : option (Z * Z) :=
  let utc_guess := local_ts - o * 60000 in
  match zone_offset_nan env tz utc_guess with
  | None => None
  | Some o2 =>
      if o =? o2 then Some (utc_guess, o)
      else
        let utc_guess' := utc_guess - (o2 - o) * 60000 in
        match zone_offset_nan env tz utc_guess' with
        | None => None
        | Some o3 =>
            if o2 =? o3 then Some (utc_guess', o2)
            else Some (local_ts - Z.min o2 o3 * 60000, Z.max o2 o3)
        end
  end.

(** [new DateTime({ ts, zone, o })] for a number [ts] and a valid zone:
    the constructor reads the components with [tsToObj(ts, o)], a [Date]
    at [ts + o * 60000]; out of range their year is NaN and the
    [DateTime] is invalid *)
Definition mk_dt (ts : Z) (z : zone) (o : Z) : DateTime :=
  match time_clip (ts + o * 60000) with
  | Some _ => Some (DT ts z o)
  | None => None
  end.

(** [DateTime.fromObject(obj, { zone })] for a complete object, once the
    zone is normalized; [offsetProvis] is the zone's offset now, or the
    offset the ISO parser read. *)
Definition from_object_in (env : Env) (c : comps) (z : zone) (provis : Z) : DateTime :=
  match z with
  | ZInvalid => None
  | _ =>
      if valid_comps c then
        (* [objToLocalTS]: [Date.UTC] is NaN out of range *)
        match time_clip (obj_to_local_ts c) with
        | None => None
        | Some local =>
            match fix_offset env local provis z with
            | Some (ts, o) => mk_dt ts z o
            | None => None
            end
        end
      else None
  end.

Definition from_object (env : Env) (c : comps) (zone_opt : option string) : DateTime :=
  let z := normalize_zone env zone_opt in
  from_object_in env c z (zone_offset env z (env_now env)).

(** [dt.setZone(name)] *)
Definition set_zone (env : Env) (d : DateTime) (name : string) : DateTime :=
  match d with
  | None => None
  | Some x =>
      let z := normalize_zone env (Some name) in
      if zone_equals z (dt_zone x) then Some x
      else match z with
           | ZInvalid => None
           | _ =>
               (* [clone]: the constructor takes [zone.offset(ts)] *)
               match zone_offset_nan env z (dt_ts x) with
               | Some o => mk_dt (dt_ts x) z o
               | None => None
               end
           end
  end.

(** [DateTime.fromJSDate(date)]: [None] for an invalid [Date]. *)
Definition from_js_date (env : Env) (date : option Z) : DateTime :=
  match date with
  | None => None
  | Some ts =>
      match zone_offset_nan env ZSystem ts with
      | Some o => mk_dt ts ZSystem o
      | None => None
      end
  end.

(** Luxon's [padStart(n, len)] for the numeric tokens *)
Definition lux_pad (z : Z) (len : nat) : string :=
  if z <? 0 then "-" +:+ Str.pad_start (Str.of_Z (- z)) len
  else Str.pad_start (Str.of_Z z) len.

Definition INVALID : string := "Invalid DateTime".

(** [dt.toFormat('yyyy-MM-dd_HH-mm-ss')] *)
Definition format_components (c : comps) : string :=
  lux_pad (c_year c) 4 +:+ "-" +:+ lux_pad (c_month c) 2 +:+ "-" +:+ lux_pad (c_day c) 2
  +:+ "_" +:+ lux_pad (c_hour c) 2 +:+ "-" +:+ lux_pad (c_minute c) 2
  +:+ "-" +:+ lux_pad (c_second c) 2.

Definition to_format_file (d : DateTime) : string :=
  match d with
  | None => INVALID
  | Some x => format_components (dt_comps x)
  end.

(** [dt.toFormat('yyyy:MM:dd HH:mm:ssZZ')]; [ZZ] is [zone.offset(ts)],
    read here for the instants [fromJSDate] gives, which lie in range *)
Definition to_format_raw (env : Env) (d : DateTime) : string :=
  match d with
  | None => INVALID
  | Some x =>
      let c := dt_comps x in
      lux_pad (c_year c) 4 +:+ ":" +:+ lux_pad (c_month c) 2 +:+ ":" +:+ lux_pad (c_day c) 2
      +:+ " " +:+ lux_pad (c_hour c) 2 +:+ ":" +:+ lux_pad (c_minute c) 2
      +:+ ":" +:+ lux_pad (c_second c) 2
      +:+ format_offset_short (zone_offset env (dt_zone x) (dt_ts x))
  end.

(** *** ISO 8601 text, as read by Luxon's [fromISO] and by V8's [Date]

    Both parsers accept far more than the script meets; the model covers
    the calendar forms [YYYY-MM-DD] and [YYYY-MM-DDTHH:mm:ss], with an
    optional fraction of one to three digits and an optional [Z] or
    [+HH:mm]/[-HH:mm] offset.  Any other text is rejected, as both
    parsers reject the EXIF form [YYYY:MM:DD HH:MM:SS]; V8 accepts some
    forms the model rejects (a year or year-month alone, a time without
    seconds, six-digit years, its legacy formats), so the model's
    [new Date] is valid on fewer texts than V8's. *)

Record iso_parts := IsoParts {
  ip_comps : comps;
  ip_offset : option Z;   (* [Z] is [Some 0] *)
  ip_has_time : bool }.

Definition d2 (a b : ascii) : option Z :=
  match digit a, digit b with Some x, Some y => Some (10 * x + y) | _, _ => None end.

Definition d4 (a b c d : ascii) : option Z :=
  match d2 a b, d2 c d with Some x, Some y => Some (100 * x + y) | _, _ => None end.

(** the fraction: [parseMillis] of one to three digits *)
Definition parse_fraction (l : list ascii) : option (Z * list ascii) :=
  match l with
  | "."%char :: a :: b :: c :: rest =>
      match digit a, digit b, digit c with
      | Some x, Some y, Some z => Some (100 * x + 10 * y + z, rest)
      | Some x, Some y, None => Some (100 * x + 10 * y, c :: rest)
      | Some x, None, _ => Some (100 * x, b :: c :: rest)
      | None, _, _ => None
      end
  | "."%char :: a :: b :: [] =>
      match digit a, digit b with
      | Some x, Some y => Some (100 * x + 10 * y, [])
      | Some x, None => Some (100 * x, [b])
      | None, _ => None
      end
  | "."%char :: a :: [] =>
      match digit a with Some x => Some (100 * x, []) | None => None end
  | "."%char :: [] => None
  | _ => Some (0, l)
  end.

Definition parse_offset (l : list ascii) : option (option Z) :=
  match l with
  | [] => Some None
  | ["Z"%char] => Some (Some 0)
  | [sg; h1; h2; ":"%char; m1; m2] =>
      match sign_of sg, d2 h1 h2, d2 m1 m2 with
      | Some s, Some h, Some m => Some (Some (s * (h * 60 + m)))
      | _, _, _ => None
      end
  | _ => None
  end.

Definition parse_iso (s : string) : option iso_parts :=
  match list_ascii_of_string s with
  | y1 :: y2 :: y3 :: y4 :: "-"%char :: m1 :: m2 :: "-"%char :: e1 :: e2 :: rest =>
      match d4 y1 y2 y3 y4, d2 m1 m2, d2 e1 e2 with
      | Some y, Some mo, Some d =>
          match rest with
          | [] => Some (IsoParts (Comps y mo d 0 0 0 0) None false)
          | "T"%char :: h1 :: h2 :: ":"%char :: i1 :: i2 :: ":"%char :: s1 :: s2 :: rest2 =>
              match d2 h1 h2, d2 i1 i2, d2 s1 s2, parse_fraction rest2 with
              | Some h, Some mi, Some sec, Some (ms, rest3) =>
                  match parse_offset rest3 with
                  | Some off => Some (IsoParts (Comps y mo d h mi sec ms) off true)
                  | None => None
                  end
              | _, _, _, _ => None
              end
          | _ => None
          end
      | _, _, _ => None
      end
  | _ => None
  end.

(** [DateTime.fromISO(text, { setZone: true })]: the parsed zone is kept;
    text without an offset is read in the default (system) zone. *)
Definition from_iso (env : Env) (text : string) : DateTime :=
  match parse_iso text with
  | None => None
  | Some p =>
      let z := match ip_offset p with Some o => ZFixed o | None => ZSystem end in
      from_object_in env (ip_comps p) z (zone_offset env z (env_now env))
  end.

(** [new Date(text).valueOf()] in V8, [None] for [NaN]: a date-only form
    is UTC, a date-time without offset is local time; the day may run
    past the end of the month (V8 only bounds it by 31); the result is
    clipped to 8.64e15 ms. *)
Definition js_local_to_utc (env : Env) (t : Z) : Z :=
  t - env_local_offset env (t - env_local_offset env t * 60000) * 60000.

Definition js_valid (c : comps) : bool :=
  between (c_month c) 1 12 && between (c_day c) 1 31
  && (between (c_hour c) 0 23
      || ((c_hour c =? 24) && (c_minute c =? 0) && (c_second c =? 0)
          && (c_millisecond c =? 0)))
  && between (c_minute c) 0 59 && between (c_second c) 0 59.

Definition js_new_date (env : Env) (text : string) : option Z :=
  match parse_iso text with
  | None => None
  | Some p =>
      let c := ip_comps p in
      if js_valid c then
        let local := obj_to_local_ts c in
        let t := match ip_offset p, ip_has_time p with
                 | Some o, _ => local - o * 60000
                 | None, false => local
                 | None, true => js_local_to_utc env local
                 end in
        if Z.abs t <=? 8640000000000000 then Some t else None
      else None
  end.

End Lib.

(* ================================================================= *)
(** ** Node's [path] module (POSIX) *)

Module NodePath.

Definition slash : ascii := "/"%char.
Definition dot : ascii := "."%char.

Fixpoint strip_trailing_slashes (l : list ascii) : list ascii :=
  match l with
  | [] => []
  | c :: rest =>
      let rest' := strip_trailing_slashes rest in
      if bool_decide (c = slash) && bool_decide (rest' = []) then [] else c :: rest'
  end.

(** the characters after the last ['/'] *)
Fixpoint after_last_slash (l : list ascii) (acc : list ascii) : list ascii :=
  match l with
  | [] => rev acc
  | c :: rest => if bool_decide (c = slash) then after_last_slash rest [] else after_last_slash rest (c :: acc)
  end.

(** the suffix of [b] from its last ['.'], if any *)
Fixpoint from_last_dot (b : list ascii) : option (nat * list ascii) :=
  match b with
  | [] => None
  | c :: rest =>
      match from_last_dot rest with
      | Some (i, e) => Some (S i, e)
      | None => if bool_decide (c = dot) then Some (0%nat, b) else None
      end
  end.

(** [path.extname(p)]: scanning back from the end, the last ['.'] of the
    last segment, unless it is the segment's first character or the
    segment is [".."]. *)
Definition extname (p : string) : string :=
  let b := after_last_slash (strip_trailing_slashes (list_ascii_of_string p)) [] in
  match from_last_dot b with
  | None => ""
  | Some (O, _) => ""
  | Some (_, e) => if bool_decide (b = [dot; dot]) then "" else string_of_list_ascii e
  end.

(** [path.dirname(p)]: the last ['/'] at an index >= 1 that some
    other character follows. *)
Fixpoint dirname_end (l : list ascii) (i : nat) (best : option nat) : option nat :=
  match l with
  | [] => best
  | c :: rest => dirname_end rest (S i) (if bool_decide (c = slash) then Some i else best)
  end.

Definition dirname (p : string) : string :=
  match list_ascii_of_string p with
  | [] => "."
  | c0 :: rest =>
      let has_root := bool_decide (c0 = slash) in
      let body := strip_trailing_slashes (c0 :: rest) in
      match dirname_end (tail body) 1 None with
      | None => if has_root then "/" else "."
      | Some e =>
          if has_root && bool_decide (e = 1%nat) then "//"
          else string_of_list_ascii (take e (c0 :: rest))
      end
  end.

(** a path segment: no ['/'] in it *)
Definition no_slash (s : string) : Prop := ~ In slash (list_ascii_of_string s).

(** [path.join(dir, name)] for a normalized directory and a plain file
    name *)
Definition join (dir name : string) : string :=
  if bool_decide (dir = "/") then "/" +:+ name else dir +:+ "/" +:+ name.

End NodePath.

(* ================================================================= *)
(** ** The renamer: [class TimelineMediaRenamer] *)

Module Renamer.

Import Lib.

(** *** Metadata, as [exiftool.read] returns it *)

(** [ExifDateTime] of exiftool-vendored, the object form of a date tag;
    [undefined] fields are [None]. *)
Record ExifDateTime := MkExifDateTime {
  year : Z; month : Z; day : Z; hour : Z; minute : Z; second : Z;
  millisecond : option Z;
  tzoffsetMinutes : option Z;
  rawValue : string;
  zoneName : option string }.

(** a tag value: an object, a string, or anything else (a number, a
    boolean, [null]) *)
Inductive ExifValue :=
  | EVObject (d : ExifDateTime)
  | EVString (s : string)
  | EVOther.

(** the tags of one file; [None] when [exiftool.read] throws *)
Abbreviation Metadata := (gmap string ExifValue).

(** [{ key, captureDate }] *)
Record Candidate := MkCandidate { key : string; captureDate : ExifDateTime }.

(** *** The filesystem the script sees

    An entry is a file, carrying what [exiftool.read] returns for it, or a
    symbolic link to another path (links to links are not followed). *)
Inductive node :=
  | NFile (meta : option Metadata)
  | NLink (target : string).

Abbreviation FileSystem := (gmap string node).

(** [fs.realpathSync(p)]: [None] when it throws *)
Definition realpath (fs : FileSystem) (p : string) : option string :=
  match fs !! p with
  | Some (NFile _) => Some p
  | Some (NLink t) => match fs !! t with Some (NFile _) => Some t | _ => None end
  | None => None
  end.

(** [fs.existsSync(p)] follows the link *)
Definition existsSync (fs : FileSystem) (p : string) : bool :=
  match realpath fs p with Some _ => true | None => false end.

(** [exiftool.read(p)] *)
Definition exif_read (fs : FileSystem) (p : string) : option Metadata :=
  match realpath fs p with
  | Some r => match fs !! r with Some (NFile m) => m | _ => None end
  | None => None
  end.

Section Program.

Variable env : Env.

(** *** [#getCaptureDate] *)

(** the string branch: [DateTime.fromJSDate(new Date(captureDate))] and
    the [exifDateTime] literal built from it *)
Definition normalize_string (s : string) : option ExifDateTime :=
  match from_js_date env (js_new_date env s) with
  | None => None                                   (* [!dateObj.isValid] *)
  | Some x =>
      let c := dt_comps x in
      Some {| year := c_year c; month := c_month c; day := c_day c;
              hour := c_hour c; minute := c_minute c; second := c_second c;
              millisecond := if c_millisecond c =? 0 then None else Some (c_millisecond c);
              tzoffsetMinutes := Some (dt_o x);
              rawValue := to_format_raw env (Some x);
              zoneName := Some (zone_name env (dt_zone x)) |}
  end.

Fixpoint find_capture (keys : list string) (exif : Metadata) : option Candidate :=
  match keys with
  | [] => None
  | k :: rest =>
      match exif !! k with
      | Some (EVObject d) => Some (MkCandidate k d)
      | Some (EVString s) =>
          if bool_decide (s = "") then find_capture rest exif      (* falsy *)
          else match normalize_string s with
               | None => find_capture rest exif                    (* [continue] *)
               | Some d => Some (MkCandidate k d)
               end
      | _ => find_capture rest exif
      end
  end.

Definition priorityDates : list string :=
  Settings.EXIF_DATES_LOCAL ++ Settings.EXIF_DATES_ZONED.

Definition getCaptureDate (read : option Metadata) : option Candidate :=
  match read with
  | None => None                                          (* [catch] *)
  | Some exif => find_capture priorityDates exif
  end.

(** *** [#formatDate] *)

(** [/[+-]\d{2}:\d{2}$/.test(rawDate)] *)
Definition offsetTest (raw : string) : bool :=
  match rev (list_ascii_of_string raw) with
  | m2 :: m1 :: ":"%char :: h2 :: h1 :: sg :: _ =>
      match sign_of sg, d2 h1 h2, d2 m1 m2 with
      | Some _, Some _, Some _ => true
      | _, _, _ => false
      end
  | _ => false
  end.

(** [captureDate.tzoffsetMinutes !== 0]: [undefined] differs from [0] *)
Definition offset_nonzero (o : option Z) : bool :=
  match o with None => true | Some m => negb (m =? 0) end.

(** [captureDate.zoneName && captureDate.zoneName !== 'UTC'] *)
Definition named_non_utc (z : option string) : bool :=
  match z with
  | None => false
  | Some s => negb (bool_decide (s = "")) && negb (bool_decide (s = "UTC"))
  end.

Definition hasExplicitOffset (cd : ExifDateTime) : bool :=
  offsetTest (rawValue cd) || offset_nonzero (tzoffsetMinutes cd) || named_non_utc (zoneName cd).

(** the components handed to [DateTime.fromObject] (no millisecond) *)
Definition object_comps (cd : ExifDateTime) : comps :=
  Comps (year cd) (month cd) (day cd) (hour cd) (minute cd) (second cd) 0.

(** [dt] after the [fromISO] attempt and the [fromObject] fallback *)
Definition parse_candidate (cd : ExifDateTime) : DateTime :=
  match from_iso env (rawValue cd) with
  | Some x => Some x
  | None => from_object env (object_comps cd) (zoneName cd)
  end.

Definition isZoned (k : string) : bool := Settings.includes Settings.EXIF_DATES_ZONED k.

Definition formatDate (cand : Candidate) : string :=
  let cd := captureDate cand in
  let dt := parse_candidate cd in
  let dt := if isZoned (key cand) && negb (hasExplicitOffset cd)
            then set_zone env dt (env_local_name env) else dt in
  to_format_file dt.

(** *** [#getNewFilePath] *)

Definition suffixStr (suffix : nat) : string :=
  match suffix with O => "" | S _ => "_" +:+ pretty (N.of_nat suffix) end.

Definition typePrefix (fileExt : string) : string :=
  if Settings.includes Settings.VIDEO_EXTENSIONS fileExt then "VID" else "IMG".

(** [newFilePath] at a given [suffix] *)
Definition candidate_path (formattedDate fileExt filePath : string) (suffix : nat) : string :=
  NodePath.join (NodePath.dirname filePath)
    (typePrefix fileExt +:+ "_" +:+ formattedDate +:+ suffixStr suffix +:+ fileExt).

(** How the [while (true)] loop leaves: with a free path, with the
    "already renamed" [null], by an exception, or not within the fuel. *)
Inductive loop_exit :=
  | LFree (p : string)
  | LAlready
  | LThrow
  | LOutOfFuel.

Section Loop.

Variables (fs : FileSystem) (formattedDate fileExt filePath originalResolved : string).

Fixpoint search (fuel : nat) (suffix : nat) : loop_exit :=
  match fuel with
  | O => LOutOfFuel
  | S fuel' =>
      let newFilePath := candidate_path formattedDate fileExt filePath suffix in
      if negb (existsSync fs newFilePath) then LFree newFilePath
      else if bool_decide (newFilePath = filePath) then LAlready
      else match realpath fs newFilePath with
           | None => LThrow
           | Some r => if bool_decide (r = originalResolved) then LAlready
                       else search fuel' (S suffix)
           end
  end.

End Loop.

(** a round of the loop that moves on to the next suffix: the candidate
    exists and is another file *)
Definition passed (fs : FileSystem) (formattedDate fileExt filePath originalResolved : string)
  (suffix : nat) : Prop :=
  let p := candidate_path formattedDate fileExt filePath suffix in
  existsSync fs p = true /\ p <> filePath /\ realpath fs p <> Some originalResolved.

(** The loop runs with [size fs + 1] rounds of fuel, which
    [getNewFilePath_terminates] shows is never exhausted.  The result is
    [None] when an exception escapes, [Some None] for [null]. *)
Definition getNewFilePath (cand : Candidate) (fileExt filePath : string) (fs : FileSystem)
  : option (option string) :=
  let formattedDate := formatDate cand in
  match realpath fs filePath with
  | None => None
  | Some originalResolved =>
      match search fs formattedDate fileExt filePath originalResolved (S (size fs)) 0 with
      | LFree p => Some (Some p)
      | LAlready => Some None
      | _ => None
      end
  end.

(** *** [#renameFiles] and [#safeRenameFile] *)

(** whether [fs.rename(from, to)] fails for a reason outside the model
    (permissions, a locked file, another volume) *)
Variable rename_fails : string -> string -> bool.

Inductive outcome :=
  | Renamed (from to : string)
  | SkippedUnsupported
  | SkippedNoDate
  | SkippedAlreadyNamed
  | FailedRename (from to : string).

(** what the script does to the outside world: metadata reads and rename
    attempts *)
Inductive event :=
  | EvRead (p : string)
  | EvRename (from to : string).

(** the filesystem, [#renamedFilesLength], [#skippedFilesLength] and the
    trace of effects *)
Record St := MkSt {
  st_fs : FileSystem; st_renamed : nat; st_skipped : nat; st_events : list event }.

Definition skip (st : St) : St :=
  MkSt (st_fs st) (st_renamed st) (S (st_skipped st)) (st_events st).

Definition emit (st : St) (e : event) : St :=
  MkSt (st_fs st) (st_renamed st) (st_skipped st) (st_events st ++ [e]).

Definition isFileSupported (fileExt : string) : bool :=
  Settings.includes Settings.PHOTO_EXTENSIONS fileExt
  || Settings.includes Settings.VIDEO_EXTENSIONS fileExt.

(** [fs.rename(from, to)]: [None] when it rejects; an entry at [to] (a
    dangling link) is replaced *)
Definition fs_rename (fs : FileSystem) (from to : string) : option FileSystem :=
  match fs !! from with
  | None => None
  | Some n => if rename_fails from to then None else Some (<[to := n]> (delete from fs))
  end.

Definition safeRenameFile (st : St) (filePath newFilePath : string) : outcome * St :=
  let st := emit st (EvRename filePath newFilePath) in
  match fs_rename (st_fs st) filePath newFilePath with
  | Some fs' =>
      (Renamed filePath newFilePath,
       MkSt fs' (S (st_renamed st)) (st_skipped st) (st_events st))
  | None => (FailedRename filePath newFilePath, skip st)
  end.

(** one round of the [for] loop; [None] when an exception escapes it *)
Definition process_file (st : St) (filePath : string) : option (outcome * St) :=
  let fileExt := Str.to_lower (NodePath.extname filePath) in
  if negb (isFileSupported fileExt) then Some (SkippedUnsupported, skip st)
  else
    let st := emit st (EvRead filePath) in
    match getCaptureDate (exif_read (st_fs st) filePath) with
    | None => Some (SkippedNoDate, skip st)
    | Some cand =>
        match getNewFilePath cand fileExt filePath (st_fs st) with
        | None => None
        | Some None => Some (SkippedAlreadyNamed, skip st)
        | Some (Some newFilePath) => Some (safeRenameFile st filePath newFilePath)
        end
    end.

Definition is_renamed (o : outcome) : bool :=
  match o with Renamed _ _ => true | _ => false end.

(** whether [#getCaptureDate] accepts the value of tag [k] *)
Definition usable (exif : Metadata) (k : string) : bool :=
  match exif !! k with
  | Some (EVObject _) => true
  | Some (EVString s) =>
      negb (bool_decide (s = ""))
      && match normalize_string s with Some _ => true | None => false end
  | _ => false
  end.

(** the [for] loop over [allFiles]; the flag is [false] when an exception
    left it early (it is caught by [getCallbackPerformance]) *)
Fixpoint renameFiles (allFiles : list string) (st : St) : St * bool :=
  match allFiles with
  | [] => (st, true)
  | filePath :: rest =>
      match process_file st filePath with
      | None => (st, false)
      | Some (_, st') => renameFiles rest st'
      end
  end.

End Program.

(** the entries of a filesystem that are files, not links, and their
    contents (the metadata [exiftool] reads), in no particular order *)
Definition is_regular (n : node) : bool :=
  match n with NFile _ => true | NLink _ => false end.

Definition regular_files (fs : FileSystem) : FileSystem :=
  filter (fun kv : string * node => is_regular kv.2 = true) fs.

Definition file_contents (fs : FileSystem) : list node :=
  snd <$> map_to_list (regular_files fs).

End Renamer.

(* ================================================================= *)
(** ** [PerformanceWrapper.#formatPerformance] *)

Module Performance.

Open Scope Z_scope.

(** [Math.floor(a / b)] is [Z.div]; [a % b] is [Z.rem]. *)
Definition pad (n : Z) : string := Str.pad_start (Str.of_Z n) 2.
Definition padMs (n : Z) : string := Str.pad_start (Str.of_Z n) 3.

Definition formatPerformance (ms : Z) : string :=
  let hours := ms / 3600000 in
  let ms := Z.rem ms 3600000 in
  let minutes := ms / 60000 in
  let ms := Z.rem ms 60000 in
  let seconds := ms / 1000 in
  let milliseconds := Z.rem ms 1000 in
  if negb (hours =? 0) then
    pad hours +:+ "." +:+ pad minutes +:+ "." +:+ pad seconds +:+ ":" +:+ padMs milliseconds
    +:+ " (h.m.s:ms)"
  else if negb (minutes =? 0) then
    pad minutes +:+ "." +:+ pad seconds +:+ ":" +:+ padMs milliseconds +:+ " (m.s:ms)"
  else if negb (seconds =? 0) then
    Str.of_Z seconds +:+ ":" +:+ padMs milliseconds +:+ " (s:ms)"
  else Str.of_Z milliseconds +:+ " (ms)".

End Performance.

(* ================================================================= *)
(** ** [#walkDir]: the list of files to process *)

Module Walk.

(** a directory entry as [readdir(dir, { withFileTypes: true })] gives it:
    a regular file, a directory with the entries [readdir] would give for
    it ([None] when reading it fails), or anything else (a symbolic link,
    a socket, ...), for which both [isFile()] and [isDirectory()] are
    false *)
#[warnings="-register-all"]
Inductive dirent :=
  | DFile (name : string)
  | DDir (name : string) (entries : option (list dirent))
  | DOther (name : string).

Definition dname (e : dirent) : string :=
  match e with DFile n | DDir n _ | DOther n => n end.

Definition isDirectory (e : dirent) : bool :=
  match e with DDir _ _ => true | _ => false end.

Definition isFile (e : dirent) : bool :=
  match e with DFile _ => true | _ => false end.

(** induction over entries and the entries of their subdirectories *)
Definition dirent_ind' (P : dirent -> Prop)
  (Hfile : forall n, P (DFile n))
  (Hdir : forall n c, match c with None => True | Some es => Forall P es end -> P (DDir n c))
  (Hother : forall n, P (DOther n)) : forall e, P e :=
  fix F e :=
    match e return P e with
    | DFile n => Hfile n
    | DOther n => Hother n
    | DDir n c =>
        Hdir n c
          (match c return match c with None => True | Some es => Forall P es end with
           | None => I
           | Some es =>
               (fix go (es : list dirent) : Forall P es :=
                  match es with
                  | [] => List.Forall_nil P
                  | e' :: r => List.Forall_cons P e' r (F e') (go r)
                  end) es
           end)
    end.

(** [entryName.startsWith('.')] *)
Definition startsWithDot (n : string) : bool :=
  match n with String c _ => bool_decide (c = "."%char) | EmptyString => false end.

(** what [readdir] guarantees of a listing: each name once, and every
    name is non-empty and has no ['/'] *)
Definition plain_name (n : string) : bool :=
  negb (bool_decide (n = "")) &&
  negb (existsb (fun c => bool_decide (c = NodePath.slash)) (list_ascii_of_string n)).

Fixpoint names_ok (e : dirent) : bool :=
  plain_name (dname e) &&
  match e with
  | DDir _ (Some es) => bool_decide (NoDup (map dname es)) && forallb names_ok es
  | _ => true
  end.

Definition listing_ok (entries : option (list dirent)) : bool :=
  match entries with
  | Some es => bool_decide (NoDup (map dname es)) && forallb names_ok es
  | None => true
  end.

Section Walk.

(** [String.prototype.toLowerCase] *)
Variable toLowerCase : string -> string.

Definition matches_any (l : list string) (name : string) : bool :=
  existsb (fun ignored => bool_decide (toLowerCase ignored = toLowerCase name)) l.

Definition isIgnoredDir (e : dirent) : bool :=
  isDirectory e && (matches_any Settings.IGNORED_DIRECTORIES (dname e) || startsWithDot (dname e)).

Definition isIgnoredFile (e : dirent) : bool :=
  isFile e && matches_any Settings.IGNORED_FILES (dname e).

(** one round of the [for] loop, pushing onto [fileList] *)
Fixpoint walk_entry (dir : string) (e : dirent) (fileList : list string) {struct e} : list string :=
  let fullPath := NodePath.join dir (dname e) in
  if isIgnoredDir e || isIgnoredFile e then fileList
  else match e with
       | DDir _ (Some es) => fold_left (fun fl e' => walk_entry fullPath e' fl) es fileList
       | DDir _ None => fileList                         (* [catch]: [return fileList] *)
       | _ => fileList ++ [fullPath]
       end.

(** [#walkDir(dir, fileList)] for a directory whose [readdir] gives
    [entries] *)
Definition walkDir (dir : string) (entries : option (list dirent)) (fileList : list string)
  : list string :=
  match entries with
  | None => fileList
  | Some es => fold_left (fun fl e => walk_entry dir e fl) es fileList
  end.

(** the paths the walk reaches: an entry that is neither a directory nor
    an ignored file, in a directory reached from [dir] through directories
    that are readable and neither ignored nor hidden *)
Inductive listed_entry : string -> dirent -> string -> Prop :=
  | listed_here dir e :
      isDirectory e = false -> isIgnoredFile e = false ->
      listed_entry dir e (NodePath.join dir (dname e))
  | listed_below dir n es e p :
      isIgnoredDir (DDir n (Some es)) = false -> In e es ->
      listed_entry (NodePath.join dir n) e p ->
      listed_entry dir (DDir n (Some es)) p.

Definition listed (dir : string) (entries : option (list dirent)) (p : string) : Prop :=
  exists es e, entries = Some es /\ In e es /\ listed_entry dir e p.

End Walk.

End Walk.

(* ================================================================= *)
(** ** [LoggerUtils]: the text kept for the log file *)

Module Logger.

Definition ESC : ascii := ascii_of_nat 27.

(** a value handed to [log]: a string, or anything else together with
    the string [arg + '\n'] converts it to *)
Inductive arg :=
  | AStr (s : string)
  | AOther (shown : string).

(** [/^\x1B\[[0-9;]*m%s\x1B\[0m$/.test(arg)] *)
Definition code_char (c : ascii) : bool :=
  bool_decide (c = ";"%char) || (48 <=? nat_of_ascii c)%nat && (nat_of_ascii c <=? 57)%nat.

Fixpoint drop_codes (l : list ascii) : list ascii :=
  match l with
  | c :: rest => if code_char c then drop_codes rest else l
  | [] => []
  end.

Definition color_template_test (s : string) : bool :=
  match list_ascii_of_string s with
  | e :: "["%char :: rest =>
      bool_decide (e = ESC)
      && bool_decide (drop_codes rest
                      = list_ascii_of_string "m%s" ++ ESC :: list_ascii_of_string "[0m")
  | _ => false
  end.

(** [saveToLogs(...args)]: the new [#logText] *)
Definition saveToLogs (logText : string) (args : list arg) : string :=
  fold_left (fun t a =>
    match a with
    | AStr s => if color_template_test s then t else t +:+ s +:+ "\n"
    | AOther shown => t +:+ shown +:+ "\n"
    end) args logText.

(** [log(...args)], on [#logText] (the console output is not kept) *)
Definition log (logText : string) (args : list arg) : string := saveToLogs logText args.

(** ['\x1b[9Xm%s\x1b[0m'] for the colour code [9X] *)
Definition template (code : string) : string :=
  String ESC ("[" +:+ code +:+ "m%s" +:+ String ESC "[0m").

Definition cyan (t : string) (message : arg) : string := log t [AStr (template "96"); message].
Definition green (t : string) (message : arg) : string := log t [AStr (template "92"); message].
Definition yellow (t : string) (message : arg) : string := log t [AStr (template "93"); message].
Definition red (t : string) (message : arg) : string := log t [AStr (template "91"); message].
Definition magenta (t : string) (message : arg) : string := log t [AStr (template "95"); message].

(** [symbol.repeat(100)] *)
Fixpoint repeat_str (s : string) (n : nat) : string :=
  match n with O => "" | S n' => s +:+ repeat_str s n' end.

(** [indent(symbol)]: [undefined] and [''] are falsy *)
Definition indent (t : string) (symbol : option string) : string :=
  log t [AStr (match symbol with
               | Some s => if bool_decide (s = "") then "" else repeat_str s 100
               | None => ""
               end)].

End Logger.

(* ================================================================= *)
(** ** [L10n] *)

Module L10n.

Inductive Language := ru | en.

Record translation := MkTr { tr_ru : string; tr_en : string }.

Definition Translations : gmap string translation :=
  list_to_map [
    ("renamed", MkTr "Переименовано" "Renamed");
    ("skipped", MkTr "Пропущено" "Skipped");
    ("deleted", MkTr "Удалено" "Deleted");
    ("directory", MkTr "Сканируемая папка" "Scanned Directory");
    ("missingDate", MkTr "Не удалось извлечь дату" "Failed to extract date");
    ("unsupported", MkTr "Пропущен файл с неподдерживаемым расширением" "Skipped file with unsupported extension");
    ("alreadyRenamed", MkTr "Файл уже переименован" "File already renamed");
    ("errorRenaming", MkTr "Ошибка при переименовании" "Error renaming");
    ("errorDelete", MkTr "Ошибка удаления" "Error deleting");
    ("errorRdFolder", MkTr "Ошибка при чтении папки" "Failed to read the folder");
    ("operationTime", MkTr "Время выполнения" "Execution time")].

(** [(locale || 'en').startsWith('ru') ? 'ru' : 'en'] *)
Definition language_of (locale : string) : Language :=
  let l := if bool_decide (locale = "") then "en" else locale in
  if String.prefix "ru" l then ru else en.

(** [Translations[key]?.[Language] || key]; a key that is not an own
    property of [Translations] reads [undefined] or an inherited
    property, which has neither [ru] nor [en] *)
Definition get (lang : Language) (key : string) : string :=
  match Translations !! key with
  | Some tr =>
      let t := match lang with ru => tr_ru tr | en => tr_en tr end in
      if bool_decide (t = "") then key else t
  | None => key
  end.

End L10n.

(* ================================================================= *)
(** ** Concrete machines and files used by the examples *)

Module Fixtures.

Import Lib Renamer.
Open Scope Z_scope.

(** a machine in Moscow: [Europe/Moscow], UTC+3 all year *)
Definition moscow : Env :=
  MkEnv (fun s => if bool_decide (s = "Europe/Moscow") then Some (fun _ => 180) else None)
        "Europe/Moscow" (fun _ => 180) 0.

Definition rename_ok : string -> string -> bool := fun _ _ => false.

(** an [ExifDateTime] as exiftool-vendored builds it from an EXIF text
    without zone *)
Definition exif_plain (y mo d h mi s : Z) (raw : string) : ExifDateTime :=
  {| year := y; month := mo; day := d; hour := h; minute := mi; second := s;
     millisecond := None; tzoffsetMinutes := None; rawValue := raw; zoneName := None |}.

Definition jan1 : ExifDateTime := exif_plain 2024 1 1 0 0 0 "2024:01:01 00:00:00".

Definition photo (cd : ExifDateTime) : node :=
  NFile (Some {[ "DateTimeOriginal" := EVObject cd ]}).

Definition start (fs : FileSystem) : St := MkSt fs 0 0 [].

Definition cand_jan1 : Candidate := MkCandidate "DateTimeOriginal" jan1.

(** the canonical name of [jan1], and the name at suffix 1 *)
Definition jan1_name : string := "/r/IMG_2024-01-01_00-00-00.jpg".
Definition jan1_name_1 : string := "/r/IMG_2024-01-01_00-00-00_1.jpg".

(** a photo already named after its date *)
Definition fs_named : FileSystem := {[ jan1_name := photo jan1 ]}.

(** a photo named after its date with suffix [_1], alone in its folder *)
Definition fs_named_1 : FileSystem := {[ jan1_name_1 := photo jan1 ]}.

(** two unrelated files without metadata occupy the names at suffixes 0
    and 1; [/r/DSC001.jpg] was taken at the same second *)
Definition fs_collide : FileSystem :=
  <[ jan1_name := NFile None ]> (<[ jan1_name_1 := NFile None ]>
    {[ "/r/DSC001.jpg" := photo jan1 ]}).

(** a photo whose only date tag holds text that is no date *)
Definition garbage_meta : Metadata := {[ "DateTimeOriginal" := EVString "garbage" ]}.
Definition fs_garbage : FileSystem := {[ "/r/a.jpg" := NFile (Some garbage_meta) ]}.

(** the same text before a usable [CreateDate] *)
Definition garbage_then_object : Metadata :=
  <[ "CreateDate" := EVObject jan1 ]> garbage_meta.

Definition fs_notes : FileSystem := {[ "/r/notes.xyz" := NFile (Some garbage_then_object) ]}.

(** an object-form date in month 13, as a camera with a broken clock
    may write it *)
Definition month13 : ExifDateTime := exif_plain 2024 13 1 0 0 0 "2024:13:01 00:00:00".
Definition fs_month13 : FileSystem := {[ "/r/b.jpg" := photo month13 ]}.




(** a folder as [readdir] lists it: a photo, a year folder holding a
    video, a [package.json] in other case and a [node_modules] folder, a
    hidden folder, an unreadable folder, a symbolic link and the script
    itself *)
Definition photos_listing : option (list Walk.dirent) :=
  Some [Walk.DFile "a.jpg";
        Walk.DDir "2024" (Some [Walk.DFile "b.mp4"; Walk.DFile "Package.JSON";
                                Walk.DDir "node_modules" (Some [Walk.DFile "x.js"])]);
        Walk.DDir ".thumbnails" (Some [Walk.DFile "c.jpg"]);
        Walk.DDir "locked" None;
        Walk.DOther "link.jpg";
        Walk.DFile "#TimelineMediaRenamer.js"].

(** a video whose extension is written with the KELVIN SIGN U+212A *)
Definition kelvin_clip : string :=
  "/r/clip.m" +:+ String "226"%char (String "132"%char (String "170"%char "v")).

(** dates at and past the end of the range of [Date] *)
Definition year300000 : ExifDateTime := exif_plain 300000 1 1 0 0 0 "300000:01:01 00:00:00".

Definition year300000_utc : ExifDateTime :=
  {| year := 300000; month := 1; day := 1; hour := 0; minute := 0; second := 0;
     millisecond := None; tzoffsetMinutes := Some 0; rawValue := "300000:01:01 00:00:00";
     zoneName := Some "UTC" |}.

Definition last_date : ExifDateTime := exif_plain 275760 9 13 0 0 0 "275760:09:13 00:00:00".

(** a camera file with an upper-case extension *)
Definition fs_upper : FileSystem := {[ "/r/DSC002.JPG" := photo jan1 ]}.

(** the state after renaming it *)
Definition st_upper_after : St :=
  match process_file moscow rename_ok (start fs_upper) "/r/DSC002.JPG" with
  | Some (_, st) => st
  | None => start fs_upper
  end.

End Fixtures.

(* ================================================================= *)
(** ** The era table behind the calendar round trip

    Within a 400-year era, [civil_from_days] finds the year of a day by
    the quotient [yoe_num doe / 365]; [years_check] lists, year by year,
    that the quotient is right at the first and the last day of each
    (March-based) year. *)

Module CalendarCheck.

Import Lib.
Open Scope Z_scope.


End CalendarCheck.

(* ================================================================= *)
(** * Proofs *)

Import Lib Renamer.

(** ** Strings *)

Lemma str_app_nil_l (s : string) : "" +:+ s = s.
Proof. reflexivity. Qed.

Lemma str_app_cons (c : ascii) (s t : string) : String c s +:+ t = String c (s +:+ t).
Proof. reflexivity. Qed.

Lemma list_ascii_of_string_app (a b : string) :
  list_ascii_of_string (a +:+ b) = list_ascii_of_string a ++ list_ascii_of_string b.
Proof.
  induction a as [|c a IH]; [reflexivity|].
  rewrite str_app_cons. simpl. by rewrite IH.
Qed.

Lemma str_app_inj_r (a b c : string) : a +:+ c = b +:+ c -> a = b.
Proof.
  intros H. apply (f_equal list_ascii_of_string) in H.
  rewrite !list_ascii_of_string_app in H. apply app_inv_tail in H.
  rewrite <- (string_of_list_ascii_of_string a), <- (string_of_list_ascii_of_string b).
  by rewrite H.
Qed.

(** ** The suffix loop of [#getNewFilePath] *)

Lemma suffixStr_inj (n m : nat) : suffixStr n = suffixStr m -> n = m.
Proof.
  destruct n as [|n], m as [|m]; simpl; try done.
  intros H. apply (inj (String.app "_")) in H.
  apply (inj pretty) in H. lia.
Qed.

Lemma candidate_path_inj (fd ext fp : string) (n m : nat) :
  candidate_path fd ext fp n = candidate_path fd ext fp m -> n = m.
Proof.
  unfold candidate_path, NodePath.join. intros H.
  case_decide; apply (inj (String.app _)) in H;
    [|apply (inj (String.app _)) in H];
    apply (inj (String.app _)), (inj (String.app _)), (inj (String.app _)) in H;
    apply suffixStr_inj, (str_app_inj_r _ _ ext), H.
Qed.

Lemma existsSync_dom (fs : FileSystem) (p : string) :
  existsSync fs p = true -> p ∈ dom fs.
Proof.
  unfold existsSync, realpath. intros H. apply elem_of_dom.
  destruct (fs !! p) as [[]|]; done.
Qed.

Lemma existsSync_realpath (fs : FileSystem) (p : string) :
  existsSync fs p = true -> exists r, realpath fs p = Some r.
Proof. unfold existsSync. destruct (realpath fs p); eauto; done. Qed.

Section LoopFacts.

Variables (fs : FileSystem) (fd ext fp orig : string).

Local Abbreviation cand := (candidate_path fd ext fp).
Local Abbreviation search := (search fs fd ext fp orig).

Local Abbreviation passed := (passed fs fd ext fp orig).

Lemma search_S (fuel k : nat) :
  search (S fuel) k =
  if negb (existsSync fs (cand k)) then LFree (cand k)
  else if bool_decide (cand k = fp) then LAlready
  else match realpath fs (cand k) with
       | None => LThrow
       | Some r => if bool_decide (r = orig) then LAlready else search fuel (S k)
       end.
Proof. reflexivity. Qed.

Lemma search_out_of_fuel (fuel k : nat) :
  search fuel k = LOutOfFuel -> forall i, (k <= i < k + fuel)%nat -> passed i.
Proof.
  revert k. induction fuel as [|fuel IH]; intros k H i Hi; [lia|].
  rewrite search_S in H.
  destruct (existsSync fs (cand k)) eqn:E; simpl in H; [|done].
  case_decide as Hfp; [done|].
  destruct (realpath fs (cand k)) as [r|] eqn:R; [|done].
  case_decide as Ho; [done|].
  destruct (decide (i = k)) as [->|Hne].
  - split; [done|split; [done|]]. rewrite R. congruence.
  - apply (IH (S k)); [done|lia].
Qed.

(** Pigeonhole: the candidates are pairwise distinct, so no more of them
    than the filesystem holds can exist. *)
Lemma passed_bound (m : nat) :
  (forall i, (i < m)%nat -> existsSync fs (cand i) = true) -> (m <= size fs)%nat.
Proof.
  intros H.
  assert (Hinj : Inj (=) (=) cand) by (intros ??; apply candidate_path_inj).
  set (L := cand <$> seq 0 m).
  assert (HL : NoDup L) by (apply NoDup_fmap_2; [done|apply NoDup_seq]).
  assert (Hsub : (list_to_set L : gset string) ⊆ dom fs).
  { intros x Hx. apply elem_of_list_to_set, list_elem_of_fmap in Hx as [i [-> Hi]].
    apply elem_of_seq in Hi. apply existsSync_dom, H. lia. }
  apply subseteq_size in Hsub. rewrite size_list_to_set in Hsub by done.
  rewrite size_dom in Hsub. unfold L in Hsub.
  rewrite length_fmap, length_seq in Hsub. done.
Qed.

Lemma search_not_out_of_fuel (fuel : nat) :
  (size fs < fuel)%nat -> search fuel 0 <> LOutOfFuel.
Proof.
  intros Hf H. pose proof (search_out_of_fuel fuel 0 H) as Hp.
  assert (fuel <= size fs)%nat; [|lia].
  apply passed_bound. intros i Hi. apply Hp. lia.
Qed.

Lemma search_no_throw (fuel k : nat) : search fuel k <> LThrow.
Proof.
  revert k. induction fuel as [|fuel IH]; intros k; [done|].
  rewrite search_S.
  destruct (existsSync fs (cand k)) eqn:E; simpl; [|done].
  case_decide; [done|].
  destruct (existsSync_realpath _ _ E) as [r ->].
  case_decide; [done|apply IH].
Qed.

Lemma search_more_fuel (fuel fuel' k : nat) :
  search fuel k <> LOutOfFuel -> (fuel <= fuel')%nat -> search fuel' k = search fuel k.
Proof.
  revert fuel' k. induction fuel as [|fuel IH]; intros fuel' k H Hle; [done|].
  destruct fuel' as [|fuel']; [lia|].
  rewrite !search_S. rewrite search_S in H.
  destruct (negb (existsSync fs (cand k))); [done|].
  case_decide; [done|].
  destruct (realpath fs (cand k)); [|done].
  case_decide; [done|]. apply IH; [done|lia].
Qed.

Lemma search_free (fuel k : nat) (p : string) :
  search fuel k = LFree p ->
  exists n, (k <= n)%nat /\ p = cand n /\ existsSync fs (cand n) = false
            /\ forall i, (k <= i < n)%nat -> passed i.
Proof.
  revert k. induction fuel as [|fuel IH]; intros k H; [done|].
  rewrite search_S in H.
  destruct (existsSync fs (cand k)) eqn:E; simpl in H.
  - case_decide as Hfp; [done|].
    destruct (realpath fs (cand k)) as [r|] eqn:R; [|done].
    case_decide as Ho; [done|].
    destruct (IH (S k) H) as (n & Hn & -> & Hfree & Hpass).
    exists n. split; [lia|]. split; [done|]. split; [done|].
    intros i Hi. destruct (decide (i = k)) as [->|]; [|apply Hpass; lia].
    split; [done|split; [done|]]. rewrite R. congruence.
  - injection H as <-. exists k. split; [lia|]. split; [done|]. split; [done|]. lia.
Qed.

Lemma search_already (fuel k n : nat) :
  (forall i, (k <= i < n)%nat -> passed i) ->
  existsSync fs (cand n) = true ->
  (cand n = fp \/ realpath fs (cand n) = Some orig) ->
  (k <= n < k + fuel)%nat ->
  search fuel k = LAlready.
Proof.
  revert k. induction fuel as [|fuel IH]; intros k Hpass Hn Hself Hk; [lia|].
  rewrite search_S.
  destruct (decide (k = n)) as [->|Hne].
  - rewrite Hn. simpl. case_decide; [done|].
    destruct Hself as [|R]; [done|]. rewrite R. case_decide; done.
  - destruct (Hpass k) as (E & Hfp & Ho); [lia|].
    rewrite E. simpl. rewrite bool_decide_false by done.
    destruct (existsSync_realpath _ _ E) as [r R]. rewrite R.
    rewrite bool_decide_false by congruence.
    apply IH; [intros i Hi; apply Hpass; lia|done|done|lia].
Qed.

End LoopFacts.

(** ** [#getNewFilePath] and the driver *)

Lemma exif_read_realpath (fs : FileSystem) (p : string) (m : Metadata) :
  exif_read fs p = Some m -> exists r, realpath fs p = Some r.
Proof. unfold exif_read. destruct (realpath fs p); eauto; done. Qed.

Lemma getCaptureDate_read (env : Env) (r : option Metadata) (c : Candidate) :
  getCaptureDate env r = Some c -> exists m, r = Some m.
Proof. destruct r; simpl; eauto; done. Qed.

Lemma getNewFilePath_unfold (env : Env) (cand : Candidate) (fileExt filePath orig : string)
  (fs : FileSystem) :
  realpath fs filePath = Some orig ->
  getNewFilePath env cand fileExt filePath fs =
  match search fs (formatDate env cand) fileExt filePath orig (S (size fs)) 0 with
  | LFree p => Some (Some p)
  | LAlready => Some None
  | _ => None
  end.
Proof. intros H. unfold getNewFilePath. by rewrite H. Qed.

(** Once the original path resolves, the generator never throws. *)
Lemma getNewFilePath_defined (env : Env) (cand : Candidate) (fileExt filePath orig : string)
  (fs : FileSystem) :
  realpath fs filePath = Some orig -> getNewFilePath env cand fileExt filePath fs <> None.
Proof.
  intros H. rewrite (getNewFilePath_unfold _ _ _ _ orig) by done.
  pose proof (search_not_out_of_fuel fs (formatDate env cand) fileExt filePath orig
                (S (size fs)) ltac:(lia)).
  pose proof (search_no_throw fs (formatDate env cand) fileExt filePath orig (S (size fs)) 0).
  destruct (search _ _ _ _ _ _ _); done.
Qed.

Lemma process_file_defined (env : Env) (rf : string -> string -> bool) (st : St) (p : string) :
  exists o st', process_file env rf st p = Some (o, st').
Proof.
  unfold process_file.
  destruct (negb (isFileSupported _)); [eauto|].
  destruct (getCaptureDate env (exif_read (st_fs (emit st (EvRead p))) p)) as [c|] eqn:Hc;
    [|eauto].
  destruct (getCaptureDate_read _ _ _ Hc) as [m Hm].
  destruct (exif_read_realpath _ _ _ Hm) as [r Hr].
  pose proof (getNewFilePath_defined env c (Str.to_lower (NodePath.extname p)) p r
                (st_fs (emit st (EvRead p))) Hr) as Hd.
  destruct (getNewFilePath _ _ _ _ _) as [[np|]|]; [|eauto|done].
  unfold safeRenameFile. destruct (fs_rename _ _ _); eauto.
Qed.

Lemma process_file_counters (env : Env) (rf : string -> string -> bool) (st st' : St)
  (p : string) (o : outcome) :
  process_file env rf st p = Some (o, st') ->
  (is_renamed o = true /\ st_renamed st' = S (st_renamed st) /\ st_skipped st' = st_skipped st)
  \/ (is_renamed o = false /\ st_skipped st' = S (st_skipped st)
      /\ st_renamed st' = st_renamed st).
Proof.
  unfold process_file. intros H.
  destruct (negb (isFileSupported _)).
  { injection H as <- <-. right. simpl. auto. }
  destruct (getCaptureDate _ _) as [c|].
  2: { injection H as <- <-. right. simpl. auto. }
  destruct (getNewFilePath _ _ _ _ _) as [[np|]|]; [|injection H as <- <-; right; simpl; auto|done].
  injection H as H. unfold safeRenameFile in H. destruct (fs_rename _ _ _).
  - injection H as <- <-. left. simpl. auto.
  - injection H as <- <-. right. simpl. auto.
Qed.

(** *** C5 *)

(** C5: for a fixed filesystem (a finite map of entries), the suffix loop
    of [#getNewFilePath], which tries the suffixes 0, 1, 2, ... in
    increasing order and each at most once, leaves within [size fs + 1]
    rounds: it neither runs out of fuel there nor returns anything else
    when given more rounds. *)
Theorem getNewFilePath_terminates (fs : FileSystem) (fd ext fp orig : string) :
  search fs fd ext fp orig (S (size fs)) 0 <> LOutOfFuel
  /\ forall fuel, (S (size fs) <= fuel)%nat ->
       search fs fd ext fp orig fuel 0 = search fs fd ext fp orig (S (size fs)) 0.
Proof.
  split.
  - apply search_not_out_of_fuel. lia.
  - intros fuel Hf. apply search_more_fuel; [|done].
    apply search_not_out_of_fuel. lia.
Qed.

(** *** C4 *)

(** C4: a target the generator returns is
    [{IMG_|VID_}{formattedDate}{suffix}{ext}] in the file's directory,
    with the empty suffix at attempt 0 and [_n] at attempt [n >= 1]; it
    does not exist, and every earlier candidate exists and is another
    file. *)
Theorem getNewFilePath_first_free (env : Env) (cand : Candidate)
  (fileExt filePath newFilePath : string) (fs : FileSystem) :
  getNewFilePath env cand fileExt filePath fs = Some (Some newFilePath) ->
  exists n,
    newFilePath =
      NodePath.join (NodePath.dirname filePath)
        ((if Settings.includes Settings.VIDEO_EXTENSIONS fileExt then "VID" else "IMG")
         +:+ "_" +:+ formatDate env cand
         +:+ (if (n =? 0)%nat then "" else "_" +:+ pretty (N.of_nat n)) +:+ fileExt)
    /\ existsSync fs newFilePath = false
    /\ forall i, (i < n)%nat ->
         let p := candidate_path (formatDate env cand) fileExt filePath i in
         existsSync fs p = true /\ p <> filePath /\ realpath fs p <> realpath fs filePath.
Proof.
  unfold getNewFilePath. destruct (realpath fs filePath) as [orig|] eqn:Ho; [|done].
  destruct (search _ _ _ _ _ _ _) eqn:Hs; try done. intros [= <-].
  destruct (search_free _ _ _ _ _ _ _ _ Hs) as (n & _ & -> & Hfree & Hpass).
  exists n. split; [|split; [done|]].
  - unfold candidate_path, typePrefix, suffixStr. by destruct n.
  - intros i Hi. apply Hpass. lia.
Qed.

(** *** C3 *)

(** C3 (as the code has it): when the loop reaches a candidate that exists
    and is the file itself (the same text, or the same resolved path),
    every earlier candidate being another existing file, the generator
    returns the "already renamed" [null] and the file is skipped with
    [SkippedAlreadyNamed]: nothing is renamed. *)
Theorem already_named_is_skipped (env : Env) (rf : string -> string -> bool) (st : St)
  (filePath : string) (cand : Candidate) (n : nat) :
  let fs := st_fs st in
  let fileExt := Str.to_lower (NodePath.extname filePath) in
  let c i := candidate_path (formatDate env cand) fileExt filePath i in
  isFileSupported fileExt = true ->
  getCaptureDate env (exif_read fs filePath) = Some cand ->
  (forall i, (i < n)%nat ->
     existsSync fs (c i) = true /\ c i <> filePath /\ realpath fs (c i) <> realpath fs filePath) ->
  existsSync fs (c n) = true ->
  (c n = filePath \/ realpath fs (c n) = realpath fs filePath) ->
  getNewFilePath env cand fileExt filePath fs = Some None
  /\ process_file env rf st filePath = Some (SkippedAlreadyNamed, skip (emit st (EvRead filePath))).
Proof.
  intros fs fileExt c Hsup Hc Hpass Hn Hself.
  destruct (getCaptureDate_read _ _ _ Hc) as [m Hm].
  destruct (exif_read_realpath _ _ _ Hm) as [orig Ho].
  assert (Hget : getNewFilePath env cand fileExt filePath fs = Some None).
  { rewrite (getNewFilePath_unfold _ _ _ _ orig) by done.
    rewrite (search_already fs (formatDate env cand) fileExt filePath orig _ 0 n);
      [done| |done| |].
    - intros i Hi. destruct (Hpass i) as (? & ? & ?); [lia|].
      unfold passed. rewrite <- Ho. done.
    - rewrite <- Ho. done.
    - assert (S n <= size fs)%nat; [|lia].
      apply (passed_bound fs (formatDate env cand) fileExt filePath). intros i Hi.
      destruct (decide (i = n)) as [->|]; [done|]. apply Hpass. lia. }
  split; [done|].
  unfold process_file. fold fileExt. rewrite Hsup. simpl. fold fs.
  rewrite Hc. fold fs. by rewrite Hget.
Qed.

(** *** C9 *)

(** C9: every file of the walk moves exactly one counter by one, [renamed]
    for a successful rename and [skipped] otherwise, and no exception
    leaves the loop; after the batch, renamed + skipped has grown by the
    number of files. *)
Theorem counters_account_for_every_file (env : Env) (rf : string -> string -> bool) :
  (forall st p o st', process_file env rf st p = Some (o, st') ->
     (is_renamed o = true /\ st_renamed st' = S (st_renamed st)
      /\ st_skipped st' = st_skipped st)
     \/ (is_renamed o = false /\ st_skipped st' = S (st_skipped st)
         /\ st_renamed st' = st_renamed st))
  /\ (forall allFiles st,
       let '(st', completed) := renameFiles env rf allFiles st in
       completed = true
       /\ (st_renamed st' + st_skipped st' = st_renamed st + st_skipped st + length allFiles)%nat).
Proof.
  split; [intros st p o st'; apply process_file_counters|].
  intros allFiles. induction allFiles as [|p rest IH]; intros st; simpl; [lia|].
  destruct (process_file_defined env rf st p) as (o & st' & H). rewrite H.
  specialize (IH st'). destruct (renameFiles env rf rest st') as [st'' b].
  destruct IH as [-> IH]. split; [done|].
  destruct (process_file_counters _ _ _ _ _ _ H) as [(_ & E1 & E2)|(_ & E1 & E2)]; lia.
Qed.

Lemma find_capture_none (env : Env) (exif : Metadata) (keys : list string) :
  (forall k, In k keys -> usable env exif k = false) -> find_capture env keys exif = None.
Proof.
  induction keys as [|k rest IH]; intros Hu; [done|].
  simpl. pose proof (Hu k (or_introl eq_refl)) as Hk. unfold usable in Hk.
  assert (Hr : forall k, In k rest -> usable env exif k = false)
    by (intros; apply Hu; right; done).
  destruct (exif !! k) as [[d|s|]|]; try done; try (by apply IH).
  case_decide; [by apply IH|].
  destruct (normalize_string env s); [done|]. by apply IH.
Qed.

(** *** C7 *)

(** C7: a file whose lower-cased extension is in neither allowlist is
    skipped with [SkippedUnsupported]: the filesystem and the renamed
    counter are unchanged, and no metadata read nor rename is emitted. *)
Theorem unsupported_untouched (env : Env) (rf : string -> string -> bool) (st : St)
  (filePath : string) :
  let fileExt := Str.to_lower (NodePath.extname filePath) in
  Settings.includes Settings.PHOTO_EXTENSIONS fileExt = false ->
  Settings.includes Settings.VIDEO_EXTENSIONS fileExt = false ->
  exists st',
    process_file env rf st filePath = Some (SkippedUnsupported, st')
    /\ st_fs st' = st_fs st /\ st_events st' = st_events st
    /\ st_renamed st' = st_renamed st /\ st_skipped st' = S (st_skipped st).
Proof.
  intros fileExt Hp Hv. exists (skip st).
  unfold process_file, isFileSupported. fold fileExt. rewrite Hp, Hv. simpl.
  repeat split.
Qed.

(** *** C6 *)

(** C6: a priority tag holding a string that gives an invalid date is
    passed over and the search goes on with the next tag; a metadata read
    that fails, or metadata where no priority tag is usable, gives [null];
    and [null] makes the driver skip a supported file with [SkippedNoDate],
    its filesystem unchanged and no rename emitted. *)
Theorem invalid_or_missing_date_skipped (env : Env) :
  (forall (exif : Metadata) k rest s,
     exif !! k = Some (EVString s) -> normalize_string env s = None ->
     find_capture env (k :: rest) exif = find_capture env rest exif)
  /\ getCaptureDate env None = None
  /\ (forall exif : Metadata,
        (forall k, In k priorityDates -> usable env exif k = false) ->
        getCaptureDate env (Some exif) = None)
  /\ (forall rf st filePath,
        isFileSupported (Str.to_lower (NodePath.extname filePath)) = true ->
        getCaptureDate env (exif_read (st_fs st) filePath) = None ->
        process_file env rf st filePath
          = Some (SkippedNoDate, skip (emit st (EvRead filePath)))
        /\ st_fs (skip (emit st (EvRead filePath))) = st_fs st
        /\ st_events (skip (emit st (EvRead filePath))) = st_events st ++ [EvRead filePath]).
Proof.
  split; [|split; [done|split]].
  - intros exif k rest s Hk Hn. simpl. rewrite Hk. by case_decide; [|rewrite Hn].
  - intros exif Hu. apply find_capture_none. done.
  - intros rf st filePath Hsup Hnone. split; [|done].
    unfold process_file. rewrite Hsup. simpl. by rewrite Hnone.
Qed.

(** ** Witnesses and counterexamples of the driver claims *)

Import Fixtures.

(** the spec's own example: [IMG_2024-01-01_00-00-00.jpg] dated
    2024-01-01 00:00:00 is skipped as already named *)
Lemma already_named_is_skipped_witness :
  getNewFilePath moscow cand_jan1 ".jpg" jan1_name fs_named = Some None
  /\ process_file moscow rename_ok (start fs_named) jan1_name
     = Some (SkippedAlreadyNamed, skip (emit (start fs_named) (EvRead jan1_name))).
Proof.
  apply (already_named_is_skipped moscow rename_ok (start fs_named) jan1_name cand_jan1 0).
  - vm_compute. reflexivity.
  - vm_compute. reflexivity.
  - intros i Hi. lia.
  - vm_compute. reflexivity.
  - left. vm_compute. reflexivity.
Defined.

(** C3 as stated fails for a file named at a suffix step above 0: the
    loop looks at suffix 0 first, finds it free and renames the file
    there, though [IMG_2024-01-01_00-00-00_1.jpg] is the candidate of
    its own date at suffix 1. *)
Lemma already_named_suffix_counterexample :
  candidate_path (formatDate moscow cand_jan1) ".jpg" jan1_name_1 1 = jan1_name_1
  /\ getCaptureDate moscow (exif_read fs_named_1 jan1_name_1) = Some cand_jan1
  /\ getNewFilePath moscow cand_jan1 ".jpg" jan1_name_1 fs_named_1 = Some (Some jan1_name)
  /\ exists st', process_file moscow rename_ok (start fs_named_1) jan1_name_1
                 = Some (Renamed jan1_name_1 jan1_name, st').
Proof.
  split; [vm_compute; reflexivity|].
  split; [vm_compute; reflexivity|].
  split; [vm_compute; reflexivity|].
  eexists. vm_compute. reflexivity.
Qed.

(** [/r/DSC001.jpg] gets suffix [_2]: the names at 0 and 1 are taken by
    other files *)
Lemma getNewFilePath_first_free_witness :
  getNewFilePath moscow cand_jan1 ".jpg" "/r/DSC001.jpg" fs_collide
    = Some (Some "/r/IMG_2024-01-01_00-00-00_2.jpg")
  /\ exists n, "/r/IMG_2024-01-01_00-00-00_2.jpg" =
      NodePath.join (NodePath.dirname "/r/DSC001.jpg")
        ((if Settings.includes Settings.VIDEO_EXTENSIONS ".jpg" then "VID" else "IMG")
         +:+ "_" +:+ formatDate moscow cand_jan1
         +:+ (if (n =? 0)%nat then "" else "_" +:+ pretty (N.of_nat n)) +:+ ".jpg").
Proof.
  assert (H : getNewFilePath moscow cand_jan1 ".jpg" "/r/DSC001.jpg" fs_collide
              = Some (Some "/r/IMG_2024-01-01_00-00-00_2.jpg"))
    by (vm_compute; reflexivity).
  split; [exact H|].
  destruct (getNewFilePath_first_free moscow cand_jan1 ".jpg" "/r/DSC001.jpg" _ fs_collide H)
    as (n & E & _ & _).
  exists n. exact E.
Defined.

Lemma getNewFilePath_terminates_witness :
  search fs_collide "2024-01-01_00-00-00" ".jpg" "/r/DSC001.jpg" "/r/DSC001.jpg" 10 0
  = search fs_collide "2024-01-01_00-00-00" ".jpg" "/r/DSC001.jpg" "/r/DSC001.jpg"
      (S (size fs_collide)) 0.
Proof.
  apply (proj2 (getNewFilePath_terminates fs_collide "2024-01-01_00-00-00" ".jpg"
                  "/r/DSC001.jpg" "/r/DSC001.jpg")).
  vm_compute. lia.
Defined.

Lemma counters_account_for_every_file_witness :
  let '(st', completed) :=
    renameFiles moscow rename_ok ["/r/DSC001.jpg"; "/r/notes.xyz"] (start fs_collide) in
  completed = true /\ (st_renamed st' + st_skipped st' = 0 + 0 + 2)%nat.
Proof.
  exact (proj2 (counters_account_for_every_file moscow rename_ok)
           ["/r/DSC001.jpg"; "/r/notes.xyz"] (start fs_collide)).
Defined.

(** [/r/notes.xyz] is skipped unread, though its metadata holds a date *)
Lemma unsupported_untouched_witness :
  exists st',
    process_file moscow rename_ok (start fs_notes) "/r/notes.xyz" = Some (SkippedUnsupported, st')
    /\ st_fs st' = fs_notes /\ st_events st' = []
    /\ st_renamed st' = 0%nat /\ st_skipped st' = 1%nat.
Proof.
  apply (unsupported_untouched moscow rename_ok (start fs_notes) "/r/notes.xyz");
    vm_compute; reflexivity.
Defined.

(** the text "garbage" is passed over in favour of [CreateDate]; alone it
    leaves the photo without a date *)
Lemma invalid_or_missing_date_skipped_witness :
  find_capture moscow priorityDates garbage_then_object
    = find_capture moscow (tail priorityDates) garbage_then_object
  /\ find_capture moscow priorityDates garbage_then_object
     = Some (MkCandidate "CreateDate" jan1)
  /\ process_file moscow rename_ok (start fs_garbage) "/r/a.jpg"
     = Some (SkippedNoDate, skip (emit (start fs_garbage) (EvRead "/r/a.jpg"))).
Proof.
  destruct (invalid_or_missing_date_skipped moscow) as (Hskip & _ & _ & Hdrv).
  split; [|split].
  - apply (Hskip garbage_then_object "DateTimeOriginal" _ "garbage");
      vm_compute; reflexivity.
  - vm_compute. reflexivity.
  - apply (Hdrv rename_ok (start fs_garbage) "/r/a.jpg"); vm_compute; reflexivity.
Defined.

(** ** [PerformanceWrapper.#formatPerformance] *)

Module PerformanceFacts.

Import Performance.
Open Scope Z_scope.

Lemma mod_mod_60000 (ms : Z) : (ms mod 3600000) mod 60000 = ms mod 60000.
Proof. apply Z.mod_mod_divide. exists 60. reflexivity. Qed.

(** *** C8 *)

(** C8 (as the code has it): for [0 <= ms], the duration is
    [HH.MM.SS:mmm (h.m.s:ms)] from one hour on (hours padded to two
    digits at least), [MM.SS:mmm (m.s:ms)] from one minute on,
    [S:mmm (s:ms)] from one second on, and the unpadded millisecond
    count followed by [ (ms)] below one second. *)
Theorem formatPerformance_cases (ms : Z) (Hms : 0 <= ms) :
  formatPerformance ms =
    if 3600000 <=? ms then
      pad (ms / 3600000) +:+ "." +:+ pad ((ms mod 3600000) / 60000) +:+ "."
      +:+ pad ((ms mod 60000) / 1000) +:+ ":" +:+ padMs (ms mod 1000) +:+ " (h.m.s:ms)"
    else if 60000 <=? ms then
      pad (ms / 60000) +:+ "." +:+ pad ((ms mod 60000) / 1000) +:+ ":"
      +:+ padMs (ms mod 1000) +:+ " (m.s:ms)"
    else if 1000 <=? ms then
      Str.of_Z (ms / 1000) +:+ ":" +:+ padMs (ms mod 1000) +:+ " (s:ms)"
    else Str.of_Z ms +:+ " (ms)".
Proof.
  unfold formatPerformance.
  assert (H1 : 0 <= ms mod 3600000 < 3600000) by (apply Z.mod_pos_bound; lia).
  assert (H2 : 0 <= ms mod 60000 < 60000) by (apply Z.mod_pos_bound; lia).
  rewrite (Z.rem_mod_nonneg ms 3600000), (Z.rem_mod_nonneg (ms mod 3600000) 60000),
    mod_mod_60000, (Z.rem_mod_nonneg (ms mod 60000) 1000) by lia.
  rewrite (Z.mod_mod_divide ms 60000 1000) by (exists 60; reflexivity).
  destruct (3600000 <=? ms) eqn:Eh.
  - apply Z.leb_le in Eh.
    assert (Hh : 1 <= ms / 3600000) by (apply Z.div_le_lower_bound; lia).
    destruct (ms / 3600000 =? 0) eqn:E; [apply Z.eqb_eq in E; lia|]. reflexivity.
  - apply Z.leb_gt in Eh.
    rewrite (Z.div_small ms 3600000), (Z.mod_small ms 3600000) by lia. simpl.
    destruct (60000 <=? ms) eqn:Em.
    + apply Z.leb_le in Em.
      assert (Hm : 1 <= ms / 60000) by (apply Z.div_le_lower_bound; lia).
      destruct (ms / 60000 =? 0) eqn:E; [apply Z.eqb_eq in E; lia|]. reflexivity.
    + apply Z.leb_gt in Em.
      rewrite (Z.div_small ms 60000), (Z.mod_small ms 60000) by lia. simpl.
      destruct (1000 <=? ms) eqn:Es.
      * apply Z.leb_le in Es.
        assert (Hs : 1 <= ms / 1000) by (apply Z.div_le_lower_bound; lia).
        destruct (ms / 1000 =? 0) eqn:E; [apply Z.eqb_eq in E; lia|]. reflexivity.
      * apply Z.leb_gt in Es.
        rewrite (Z.div_small ms 1000), (Z.mod_small ms 1000) by lia. reflexivity.
Qed.

Lemma formatPerformance_cases_witness :
  formatPerformance 3723004 = "01.02.03:004 (h.m.s:ms)".
Proof.
  rewrite (formatPerformance_cases 3723004) by lia. vm_compute. reflexivity.
Defined.

(** The spec's [mmm] is three digits and its [H] unpadded: below one
    second the code prints the bare count, and it pads the hours. *)
Lemma formatPerformance_counterexample :
  formatPerformance 5 = "5 (ms)"
  /\ formatPerformance 3600000 = "01.00.00:000 (h.m.s:ms)".
Proof. split; vm_compute; reflexivity. Qed.

End PerformanceFacts.

(** ** Object-form candidates are not validated *)

(** *** C10 *)

(** C10: an object-form candidate whose raw text is no ISO date and whose
    components are no valid date is formatted as Luxon's
    ["Invalid DateTime"]; such a photo is renamed to
    [IMG_Invalid DateTime.jpg] rather than skipped. *)
Theorem invalid_object_date_renamed :
  (forall env k cd,
     from_iso env (rawValue cd) = None -> valid_comps (object_comps cd) = false ->
     formatDate env (MkCandidate k cd) = INVALID)
  /\ exists fs filePath cd st',
       exif_read fs filePath = Some {[ "DateTimeOriginal" := EVObject cd ]}
       /\ from_iso moscow (rawValue cd) = None
       /\ valid_comps (object_comps cd) = false
       /\ process_file moscow rename_ok (start fs) filePath
          = Some (Renamed filePath "/r/IMG_Invalid DateTime.jpg", st').
Proof.
  split.
  - intros env k cd Hiso Hval.
    unfold formatDate, parse_candidate. simpl. rewrite Hiso.
    assert (E : from_object env (object_comps cd) (zoneName cd) = None).
    { unfold from_object, from_object_in. rewrite Hval.
      by destruct (normalize_zone env (zoneName cd)). }
    rewrite E. by destruct (_ && _).
  - exists fs_month13, "/r/b.jpg", month13. eexists.
    split; [vm_compute; reflexivity|].
    split; [vm_compute; reflexivity|].
    split; [vm_compute; reflexivity|].
    vm_compute. reflexivity.
Qed.

Lemma invalid_object_date_renamed_witness :
  formatDate moscow (MkCandidate "CreateDate" month13) = "Invalid DateTime".
Proof.
  apply (proj1 invalid_object_date_renamed); vm_compute; reflexivity.
Defined.

(** ** The calendar round trip *)

Module CalendarFacts.

Import Lib CalendarCheck.
Open Scope Z_scope.














End CalendarFacts.

(** ** [#formatDate] *)

Import CalendarFacts.








(** *** C2 *)


(** *** C1 *)


(** ** Witnesses and counterexamples of the formatting claims *)





(** Past the range of [Date], Luxon's [DateTime] is invalid: a date in
    the year 300000 names no file after it, whatever its tag. *)
Lemma far_year_invalid :
  formatDate moscow (MkCandidate "DateTimeOriginal" year300000) = INVALID
  /\ formatDate moscow (MkCandidate "CreateDate" year300000_utc) = INVALID.
Proof. split; vm_compute; reflexivity. Qed.

(** [toLowerCase] turns the KELVIN SIGN into [k]: the clip is a
    supported video. *)
Lemma kelvin_extension_supported :
  Str.to_lower (NodePath.extname kelvin_clip) = ".mkv"
  /\ isFileSupported (Str.to_lower (NodePath.extname kelvin_clip)) = true.
Proof. split; vm_compute; reflexivity. Qed.

(** The last day [Date] can hold is still named. *)
Lemma last_date_named :
  formatDate moscow (MkCandidate "DateTimeOriginal" last_date) = "275760-09-13_00-00-00".
Proof. vm_compute. reflexivity. Qed.

(* ================================================================= *)
(** ** [#walkDir]: the files the script visits *)

Module WalkFacts.
Import Walk.

Section Walking.
Variable f : string -> string.

Lemma walk_fold_app es dir acc :
  Forall (fun e => forall dir acc, walk_entry f dir e acc = acc ++ walk_entry f dir e []) es ->
  fold_left (fun fl e => walk_entry f dir e fl) es acc
  = acc ++ fold_left (fun fl e => walk_entry f dir e fl) es [].
Proof.
  intros HF. revert acc. induction HF as [|e r He _ IH]; intros acc; simpl.
  - by rewrite app_nil_r.
  - rewrite IH, (IH (walk_entry f dir e [])), He. by rewrite app_assoc.
Qed.

Lemma walk_entry_app e : forall dir acc, walk_entry f dir e acc = acc ++ walk_entry f dir e [].
Proof.
  induction e as [n|n c IH|n] using dirent_ind'; intros dir acc; simpl.
  - case_match; [by rewrite app_nil_r|done].
  - destruct (isIgnoredDir f (DDir n c) || isIgnoredFile f (DDir n c)); [by rewrite app_nil_r|].
    destruct c as [es|]; [|by rewrite app_nil_r]. by apply walk_fold_app.
  - done.
Qed.

Lemma walk_fold_concat es dir acc :
  fold_left (fun fl e => walk_entry f dir e fl) es acc
  = acc ++ concat (map (fun e => walk_entry f dir e []) es).
Proof.
  revert acc. induction es as [|e r IH]; intros acc; simpl.
  - by rewrite app_nil_r.
  - rewrite IH, walk_entry_app. by rewrite app_assoc.
Qed.

Lemma walk_entry_listed e : forall dir p, In p (walk_entry f dir e []) <-> listed_entry f dir e p.
Proof.
  induction e as [n|n c IH|n] using dirent_ind'; intros dir p; simpl.
  - destruct (isIgnoredFile f (DFile n)) eqn:E; simpl; split.
    + intros [].
    + intros H; inversion H; subst; congruence.
    + intros [<-|[]]. apply (listed_here f dir (DFile n)); simpl; auto.
    + intros H; inversion H; subst; simpl; auto.
  - destruct (isIgnoredDir f (DDir n c)) eqn:E.
    { split; [intros []|]. intros H; inversion H; subst; simpl in *; congruence. }
    destruct c as [es|].
    2:{ split; [intros []|]. intros H; inversion H; subst; simpl in *; congruence. }
    rewrite walk_fold_concat. simpl. split.
    + intros Hin. apply in_concat in Hin as [l [Hl Hp]]. apply in_map_iff in Hl as [e [<- He]].
      eapply listed_below; [exact E|exact He|].
      rewrite List.Forall_forall in IH. by apply (IH e He).
    + intros H; inversion H as [? ? Hd1 Hd2|? ? es' e p' Hig He Hl]; subst; [simpl in Hd1; congruence|].
      apply in_concat. exists (walk_entry f (NodePath.join dir n) e []). split.
      * apply in_map_iff. by exists e.
      * rewrite List.Forall_forall in IH. by apply (IH e He).
  - split.
    + intros [<-|[]]. by apply (listed_here f dir (DOther n)).
    + intros H; inversion H; subst; simpl; auto.
Qed.

(** [#walkDir(dir, fileList)] only appends to [fileList], and what it
    appends are exactly the paths of [listed]: the entries that are not
    directories and not ignored files, in folders reached through readable
    directories that are neither ignored nor hidden. *)
Lemma walkDir_appends_exactly_listed dir entries fileList :
  walkDir f dir entries fileList = fileList ++ walkDir f dir entries []
  /\ forall p, In p (walkDir f dir entries []) <-> listed f dir entries p.
Proof.
  destruct entries as [es|]; simpl.
  - rewrite !walk_fold_concat. split; [done|]. intros p. simpl. split.
    + intros Hin. apply in_concat in Hin as [l [Hl Hp]]. apply in_map_iff in Hl as [e [<- He]].
      exists es, e. split; [done|]. split; [done|]. by apply walk_entry_listed.
    + intros (es' & e & [= <-] & He & Hl). apply in_concat.
      exists (walk_entry f dir e []). split; [apply in_map_iff; by exists e|]. by apply walk_entry_listed.
  - split; [by rewrite app_nil_r|]. intros p. split; [done|].
    intros (es & e & [=] & _).
Qed.
End Walking.

Lemma join_chars (d n : string) :
  list_ascii_of_string (NodePath.join d n)
  = (if bool_decide (d = "/") then [NodePath.slash] else list_ascii_of_string d ++ [NodePath.slash]) ++ list_ascii_of_string n.
Proof.
  unfold NodePath.join. case_bool_decide.
  - rewrite list_ascii_of_string_app. done.
  - rewrite !list_ascii_of_string_app. simpl. by rewrite <- app_assoc.
Qed.

Lemma join_not_root (d n : string) : n <> "" -> NodePath.join d n <> "/".
Proof.
  intros Hn Hj. apply (f_equal list_ascii_of_string) in Hj. rewrite join_chars in Hj.
  destruct n as [|c n]; [done|]. simpl in Hj.
  case_bool_decide.
  - simpl in Hj. done.
  - destruct (list_ascii_of_string d) as [|x [|y l]]; simpl in Hj; try done.
Qed.

Lemma plain_name_spec (n : string) :
  plain_name n = true -> n <> "" /\ forall c, In c (list_ascii_of_string n) -> c <> NodePath.slash.
Proof.
  unfold plain_name. rewrite andb_true_iff, !negb_true_iff. intros [H1 H2].
  split.
  - intros ->. done.
  - intros c Hc ->.
    assert (existsb (fun c => bool_decide (c = NodePath.slash)) (list_ascii_of_string n) = true)
      as H3 by (apply existsb_exists; exists NodePath.slash; split; [done|by rewrite bool_decide_eq_true]).
    congruence.
Qed.

Lemma segment_eq (n1 n2 r1 r2 : list ascii) :
  (forall c, In c n1 -> c <> NodePath.slash) -> (forall c, In c n2 -> c <> NodePath.slash) ->
  (r1 = [] \/ exists r, r1 = NodePath.slash :: r) -> (r2 = [] \/ exists r, r2 = NodePath.slash :: r) ->
  n1 ++ r1 = n2 ++ r2 -> n1 = n2.
Proof.
  revert n2. induction n1 as [|c n1 IH]; intros [|c' n2] H1 H2 Hr1 Hr2 E; simpl in *; try done.
  - destruct Hr1 as [->|[r ->]]; [done|]. injection E as E _. exfalso. apply (H2 c'); [by left|congruence].
  - destruct Hr2 as [->|[r ->]]; [done|]. injection E as E _. exfalso. apply (H1 c); [by left|congruence].
  - injection E as -> E. f_equal. apply IH; auto.
Qed.

Section NoDupWalk.
Variable f : string -> string.

Lemma listed_prefix dir e p :
  listed_entry f dir e p -> names_ok e = true ->
  exists r, list_ascii_of_string p = list_ascii_of_string (NodePath.join dir (dname e)) ++ r
            /\ (r = [] \/ exists r', r = NodePath.slash :: r').
Proof.
  induction 1 as [dir e _ _|dir n es e p _ He _ IH]; intros Hok.
  - exists []. rewrite app_nil_r. auto.
  - simpl in Hok. rewrite !andb_true_iff in Hok. destruct Hok as [Hn [_ Hall]].
    rewrite forallb_forall in Hall. destruct (IH (Hall e He)) as [r [Hp _]].
    apply plain_name_spec in Hn as [Hn _].
    exists (NodePath.slash :: list_ascii_of_string (dname e) ++ r). split; [|eauto].
    rewrite Hp, (join_chars (NodePath.join dir n)).
    rewrite bool_decide_eq_false_2 by (by apply join_not_root).
    simpl. by rewrite <- !app_assoc.
Qed.

(** two entries of one listing reach different paths *)
Lemma listed_disjoint dir e1 e2 p :
  names_ok e1 = true -> names_ok e2 = true -> dname e1 <> dname e2 ->
  listed_entry f dir e1 p -> listed_entry f dir e2 p -> False.
Proof.
  intros Ok1 Ok2 Hne L1 L2.
  destruct (listed_prefix _ _ _ L1 Ok1) as [r1 [P1 R1]].
  destruct (listed_prefix _ _ _ L2 Ok2) as [r2 [P2 R2]].
  rewrite P1, !join_chars in P2. rewrite <- !app_assoc in P2. apply app_inv_head in P2.
  assert (N1 : plain_name (dname e1) = true) by (destruct e1; simpl in Ok1; by apply andb_prop in Ok1 as [? _]).
  assert (N2 : plain_name (dname e2) = true) by (destruct e2; simpl in Ok2; by apply andb_prop in Ok2 as [? _]).
  apply plain_name_spec in N1 as [_ N1]. apply plain_name_spec in N2 as [_ N2].
  apply Hne.
  assert (list_ascii_of_string (dname e1) = list_ascii_of_string (dname e2)) as E. { eapply segment_eq; [exact N1|exact N2|exact R1|exact R2|]. exact P2. }
  apply (f_equal string_of_list_ascii) in E. by rewrite !string_of_list_ascii_of_string in E.
Qed.

Lemma walk_listing_nodup dir es :
  bool_decide (NoDup (map dname es)) && forallb names_ok es = true ->
  Forall (fun e => forall dir, names_ok e = true -> NoDup (walk_entry f dir e [])) es ->
  NoDup (concat (map (fun e => walk_entry f dir e []) es)).
Proof.
  rewrite andb_true_iff, bool_decide_eq_true. intros [Hnd Hall] HF.
  induction HF as [|e r He HF IH]; simpl; [constructor|].
  simpl in Hall. apply andb_true_iff in Hall as [Ok Hall].
  inversion Hnd as [|? ? Hnin Hnd']; subst.
  apply NoDup_app. split_and!; [by apply He| |by apply IH].
  intros p Hp Hp'. apply list_elem_of_In in Hp, Hp'.
  apply in_concat in Hp' as [l [Hl Hp']]. apply in_map_iff in Hl as [e' [<- He']].
  apply walk_entry_listed in Hp, Hp'.
  rewrite forallb_forall in Hall.
  eapply (listed_disjoint dir e e'); eauto.
  intros E. apply Hnin. rewrite E. apply list_elem_of_In. by apply in_map.
Qed.

Lemma walk_entry_nodup e : forall dir, names_ok e = true -> NoDup (walk_entry f dir e []).
Proof.
  induction e as [n|n c IH|n] using dirent_ind'; intros dir Hok; simpl.
  - destruct (isIgnoredFile f (DFile n)); simpl; [constructor|apply NoDup_singleton].
  - destruct (isIgnoredDir f (DDir n c)); [constructor|].
    destruct c as [es|]; [|constructor].
    rewrite walk_fold_concat. simpl. apply walk_listing_nodup; [|done].
    simpl in Hok. by apply andb_prop in Hok as [_ Hok].
  - apply NoDup_singleton.
Qed.

(** On a listing as [readdir] gives it (each name once, names non-empty
    and without ['/']), [#walkDir] lists no path twice. *)
Theorem walkDir_no_duplicates dir entries :
  listing_ok entries = true -> NoDup (walkDir f dir entries []).
Proof.
  destruct entries as [es|]; simpl; [|constructor].
  intros Hok. rewrite walk_fold_concat. simpl. apply walk_listing_nodup; [done|].
  apply List.Forall_forall. intros e _ d. apply walk_entry_nodup.
Qed.
End NoDupWalk.

End WalkFacts.

(* ================================================================= *)
(** ** Paths: no ['/'] in generated names, [dirname] and [extname] of a
    joined path *)

Module PathFacts.
Import NodePath.

Lemma no_slash_app (a b : string) : no_slash (a +:+ b) <-> no_slash a /\ no_slash b.
Proof. unfold no_slash. rewrite list_ascii_of_string_app, in_app_iff. tauto. Qed.

Lemma no_slash_cons (c : ascii) (s : string) :
  c <> slash -> no_slash s -> no_slash (String c s).
Proof. unfold no_slash. simpl. intros Hc Hs [E|E]; [congruence|done]. Qed.

Lemma no_slash_pretty_N_go (x : N) (s : string) : no_slash s -> no_slash (pretty_N_go x s).
Proof.
  revert s. induction (N.lt_wf_0 x) as [x _ IH]; intros s Hs.
  destruct (decide (x = 0%N)) as [->|Hx]; [by rewrite pretty_N_go_0|].
  rewrite pretty_N_go_step by lia. apply IH; [apply N.div_lt; lia|].
  apply no_slash_cons; [|done]. unfold pretty_N_char, slash. by repeat case_match.
Qed.

Lemma no_slash_pretty (x : N) : no_slash (pretty x).
Proof.
  unfold pretty, pretty_N. case_decide; [by intros [E|[]]|].
  apply no_slash_pretty_N_go. by intros [].
Qed.

Lemma no_slash_of_Z (z : Z) : no_slash (Str.of_Z z).
Proof.
  unfold Str.of_Z. destruct (z <? 0)%Z; [|apply no_slash_pretty].
  apply no_slash_cons; [done|apply no_slash_pretty].
Qed.

Lemma no_slash_zeros (k : nat) : no_slash (Str.zeros k).
Proof. induction k; simpl; [by intros []|by apply no_slash_cons]. Qed.

Lemma no_slash_lux_pad (z : Z) (len : nat) : no_slash (lux_pad z len).
Proof.
  unfold lux_pad, Str.pad_start.
  destruct (z <? 0)%Z; [apply no_slash_cons; [done|]|];
    apply no_slash_app; split; auto using no_slash_zeros, no_slash_of_Z.
Qed.

Lemma no_slash_formatDate (env : Env) (cand : Candidate) : no_slash (formatDate env cand).
Proof.
  unfold formatDate, to_format_file. case_match.
  - unfold format_components. rewrite !no_slash_app.
    repeat split; try apply no_slash_lux_pad; by intros [E|[]].
  - unfold no_slash, INVALID. simpl. intuition discriminate.
Qed.

Lemma strip_last (l : list ascii) (c : ascii) :
  c <> slash -> strip_trailing_slashes (l ++ [c]) = l ++ [c].
Proof.
  intros Hc. induction l as [|x l IH]; simpl.
  - by rewrite bool_decide_eq_false_2.
  - rewrite IH. rewrite (bool_decide_eq_false_2 (l ++ [c] = [])) by (by destruct l).
    by rewrite andb_false_r.
Qed.

Lemma dirname_end_none (l : list ascii) (i : nat) (best : option nat) :
  ~ In slash l -> dirname_end l i best = best.
Proof.
  revert i. induction l as [|c l IH]; intros i H; simpl; [done|].
  rewrite bool_decide_eq_false_2 by (intros ->; apply H; by left).
  apply IH. intros H'. apply H. by right.
Qed.

Lemma dirname_end_last (l1 l2 : list ascii) (i : nat) (best : option nat) :
  ~ In slash l2 -> dirname_end (l1 ++ slash :: l2) i best = Some (i + length l1)%nat.
Proof.
  revert i best. induction l1 as [|c l1 IH]; intros i best H; simpl.
  - rewrite dirname_end_none by done. f_equal; lia.
  - rewrite IH by done. f_equal. lia.
Qed.

Lemma after_last_slash_none (l acc : list ascii) :
  ~ In slash l -> after_last_slash l acc = rev acc ++ l.
Proof.
  revert acc. induction l as [|c l IH]; intros acc H; simpl; [by rewrite app_nil_r|].
  rewrite bool_decide_eq_false_2 by (intros ->; apply H; by left).
  rewrite IH by (intros H'; apply H; by right). simpl. by rewrite <- app_assoc.
Qed.

Lemma after_last_slash_last (l1 l2 acc : list ascii) :
  ~ In slash l2 -> after_last_slash (l1 ++ slash :: l2) acc = l2.
Proof.
  revert acc. induction l1 as [|c l1 IH]; intros acc H; simpl.
  - by rewrite after_last_slash_none.
  - case_bool_decide; by apply IH.
Qed.

Lemma from_last_dot_none (l : list ascii) : ~ In dot l -> from_last_dot l = None.
Proof.
  induction l as [|c l IH]; intros H; simpl; [done|].
  rewrite IH by (intros H'; apply H; by right).
  rewrite bool_decide_eq_false_2 by (intros ->; apply H; by left). done.
Qed.

Lemma from_last_dot_last (l x : list ascii) :
  ~ In dot x -> from_last_dot (l ++ dot :: x) = Some (length l, dot :: x).
Proof.
  intros H. induction l as [|c l IH]; simpl.
  - by rewrite from_last_dot_none.
  - by rewrite IH.
Qed.

(** a normalized absolute directory: ["/"], or ["/"] followed by a text
    that does not end in ['/'] *)
Lemma join_chars_abs (rest n : string) :
  list_ascii_of_string (join (String "/" rest) n)
  = (slash :: list_ascii_of_string rest) ++ (if bool_decide (rest = "") then [] else [slash])
    ++ list_ascii_of_string n.
Proof.
  unfold join. destruct (decide (rest = "")) as [->|Hr].
  - rewrite bool_decide_eq_true_2 by done. done.
  - rewrite bool_decide_eq_false_2 by congruence. rewrite bool_decide_eq_false_2 by done.
    rewrite !list_ascii_of_string_app. simpl. done.
Qed.

Lemma dirname_join (rest n : string) :
  n <> "" -> no_slash n -> dirname (join (String "/" rest) n) = String "/" rest.
Proof.
  intros Hn Hs. unfold dirname. rewrite join_chars_abs.
  set (sep := if bool_decide (rest = "") then [] else [slash]).
  destruct (exists_last (l:=list_ascii_of_string n)) as [l [c Hlc]].
  { intros E. apply Hn. rewrite <- (string_of_list_ascii_of_string n), E. done. }
  assert (Hc : c <> slash) by (intros ->; apply Hs; rewrite Hlc; apply in_app_iff; right; by left).
  assert (Hstrip : strip_trailing_slashes (slash :: (list_ascii_of_string rest ++ sep ++ list_ascii_of_string n))
                   = slash :: (list_ascii_of_string rest ++ sep ++ list_ascii_of_string n)).
  { rewrite Hlc, !app_assoc, app_comm_cons. by apply strip_last. }
  cbn [app]. cbv zeta. rewrite Hstrip. cbn [tail].
  rewrite (bool_decide_eq_true_2 (slash = slash)) by reflexivity.
  unfold sep. destruct (decide (rest = "")) as [->|Hr].
  - rewrite bool_decide_eq_true_2 by done. simpl. rewrite dirname_end_none by done. done.
  - rewrite bool_decide_eq_false_2 by done. simpl.
    rewrite dirname_end_last by done.
    rewrite (bool_decide_eq_false_2 (1 + _ = 1)%nat).
    2:{ destruct rest; [done|]. simpl. lia. }
    simpl. rewrite take_app_length'. 2: lia. by rewrite string_of_list_ascii_of_string.
Qed.

Lemma join_split (rest n : string) :
  exists L1, list_ascii_of_string (join (String "/" rest) n) = L1 ++ slash :: list_ascii_of_string n.
Proof.
  rewrite join_chars_abs. destruct (decide (rest = "")) as [->|Hr].
  - exists []. rewrite bool_decide_eq_true_2 by done. done.
  - exists (slash :: list_ascii_of_string rest). rewrite bool_decide_eq_false_2 by done.
    done.
Qed.

Lemma extname_join (rest stem ext : string) (c0 : ascii) (stem' : string) (x : list ascii) :
  stem = String c0 stem' -> c0 <> dot -> no_slash stem -> no_slash ext ->
  list_ascii_of_string ext = dot :: x -> ~ In dot x ->
  extname (join (String "/" rest) (stem +:+ ext)) = ext.
Proof.
  intros Hst Hc0 Hs1 Hs2 Hx Hnd. unfold extname.
  destruct (join_split rest (stem +:+ ext)) as [L1 HL]. rewrite HL.
  assert (Hns : no_slash (stem +:+ ext)) by (apply no_slash_app; done).
  destruct (exists_last (l:=list_ascii_of_string (stem +:+ ext))) as [l [c Hlc]].
  { rewrite list_ascii_of_string_app, Hx. by destruct (list_ascii_of_string stem). }
  assert (Hc : c <> slash) by (intros ->; apply Hns; rewrite Hlc; apply in_app_iff; right; by left).
  rewrite Hlc, app_comm_cons, app_assoc, strip_last by done.
  rewrite <- app_assoc, <- app_comm_cons, <- Hlc.
  rewrite after_last_slash_last by done.
  rewrite list_ascii_of_string_app, Hx, from_last_dot_last by done.
  rewrite Hst. simpl.
  rewrite bool_decide_eq_false_2.
  - rewrite <- (string_of_list_ascii_of_string ext), Hx. done.
  - intros [= E _]. done.
Qed.

End PathFacts.
Import PathFacts.

(* ================================================================= *)
(** ** One round of [#renameFiles] *)

Lemma getNewFilePath_free_inv (env : Env) (cand : Candidate) (fileExt fp np : string)
  (fs : FileSystem) :
  getNewFilePath env cand fileExt fp fs = Some (Some np) ->
  exists orig k, realpath fs fp = Some orig
    /\ np = candidate_path (formatDate env cand) fileExt fp k
    /\ existsSync fs np = false
    /\ forall i, (i < k)%nat -> passed fs (formatDate env cand) fileExt fp orig i.
Proof.
  unfold getNewFilePath. destruct (realpath fs fp) as [orig|] eqn:Ho; [|done].
  destruct (search _ _ _ _ _ _ _) eqn:Hs; try done. intros [= <-].
  destruct (search_free _ _ _ _ _ _ _ _ Hs) as (k & _ & -> & Hfree & Hpass).
  exists orig, k. split_and!; try done. intros i Hi. apply Hpass. lia.
Qed.

Lemma existsSync_of_realpath (fs : FileSystem) (p r : string) :
  realpath fs p = Some r -> existsSync fs p = true.
Proof. unfold existsSync. by intros ->. Qed.

Lemma process_file_cases (env : Env) (rf : string -> string -> bool) (st st' : St)
  (fp : string) (o : outcome) :
  process_file env rf st fp = Some (o, st') ->
  (o = SkippedUnsupported /\ st_fs st' = st_fs st /\ st_events st' = st_events st)
  \/ ((o = SkippedNoDate \/ o = SkippedAlreadyNamed) /\ st_fs st' = st_fs st
      /\ st_events st' = st_events st ++ [EvRead fp])
  \/ (exists np, existsSync (st_fs st) np = false /\ np <> fp
      /\ st_events st' = st_events st ++ [EvRead fp; EvRename fp np]
      /\ ((o = Renamed fp np
           /\ exists n, st_fs st !! fp = Some n /\ st_fs st' = <[np := n]> (delete fp (st_fs st)))
          \/ (o = FailedRename fp np /\ st_fs st' = st_fs st))).
Proof.
  unfold process_file.
  destruct (negb (isFileSupported _)).
  { intros [= <- <-]. left. done. }
  cbn [st_fs emit].
  destruct (getCaptureDate env (exif_read (st_fs st) fp)) as [cand|] eqn:Hc.
  2:{ intros [= <- <-]. right; left. split_and!; auto. }
  destruct (getNewFilePath env cand _ fp (st_fs st)) as [[np|]|] eqn:Hn; [|intros [= <- <-]|done].
  2:{ right; left. split_and!; auto. }
  destruct (getNewFilePath_free_inv _ _ _ _ _ _ Hn) as (orig & k & Ho & _ & Hfree & _).
  intros H. right; right. exists np.
  split; [done|]. split.
  { intros ->. apply existsSync_of_realpath in Ho. congruence. }
  unfold safeRenameFile, fs_rename in H. cbn [st_fs emit st_events] in H.
  destruct (st_fs st !! fp) as [n|] eqn:Hfp.
  - destruct (rf fp np); injection H as <- <-; unfold skip, emit; cbn [st_events st_fs].
    + split; [by rewrite <- app_assoc|]. right. done.
    + split; [by rewrite <- app_assoc|]. left. eauto.
  - injection H as <- <-. unfold skip, emit; cbn [st_events st_fs].
    split; [by rewrite <- app_assoc|]. right. done.
Qed.

(** One round of [#renameFiles] on a file: it is skipped as unsupported
    with nothing read or changed; or skipped after reading its metadata,
    with the file system unchanged; or a rename to a path that did not
    exist and differs from the file's own path is attempted, which either
    moves the file's entry there or, on failure, changes nothing. *)
Theorem process_file_effects (env : Env) (rf : string -> string -> bool) (st st' : St)
  (fp : string) (o : outcome) :
  process_file env rf st fp = Some (o, st') ->
  (o = SkippedUnsupported /\ st_fs st' = st_fs st /\ st_events st' = st_events st)
  \/ ((o = SkippedNoDate \/ o = SkippedAlreadyNamed) /\ st_fs st' = st_fs st
      /\ st_events st' = st_events st ++ [EvRead fp])
  \/ (exists np, existsSync (st_fs st) np = false /\ np <> fp
      /\ st_events st' = st_events st ++ [EvRead fp; EvRename fp np]
      /\ ((o = Renamed fp np
           /\ exists n, st_fs st !! fp = Some n /\ st_fs st' = <[np := n]> (delete fp (st_fs st)))
          \/ (o = FailedRename fp np /\ st_fs st' = st_fs st))).
Proof. apply process_file_cases. Qed.

Lemma str_app_assoc (a b c : string) : (a +:+ b) +:+ c = a +:+ b +:+ c.
Proof. induction a as [|x a IH]; [done|]. rewrite !str_app_cons. by rewrite IH. Qed.

Lemma plain_name_no_slash (n : string) :
  Walk.plain_name n = true -> n <> "" /\ NodePath.no_slash n.
Proof.
  unfold Walk.plain_name. rewrite andb_true_iff, !negb_true_iff. intros [H1 H2].
  split.
  - intros ->. done.
  - intros Hc.
    assert (existsb (fun c => bool_decide (c = NodePath.slash)) (list_ascii_of_string n) = true)
      as H3 by (apply existsb_exists; exists NodePath.slash; split; [done|by rewrite bool_decide_eq_true]).
    congruence.
Qed.

Lemma supported_ext_shape (e : string) :
  isFileSupported e = true ->
  exists x, list_ascii_of_string e = NodePath.dot :: x /\ ~ In NodePath.dot x
            /\ NodePath.no_slash e /\ Str.to_lower e = e.
Proof.
  assert (Hall : forallb (fun e =>
    match list_ascii_of_string e with
    | c :: x => bool_decide (c = NodePath.dot)
                && negb (existsb (fun a => bool_decide (a = NodePath.dot)) x)
    | [] => false
    end
    && negb (existsb (fun a => bool_decide (a = NodePath.slash)) (list_ascii_of_string e))
    && bool_decide (Str.to_lower e = e))
    (Settings.PHOTO_EXTENSIONS ++ Settings.VIDEO_EXTENSIONS) = true) by (vm_compute; reflexivity).
  intros H.
  assert (Hin : In e (Settings.PHOTO_EXTENSIONS ++ Settings.VIDEO_EXTENSIONS)).
  { unfold isFileSupported, Settings.includes in H. apply orb_true_iff in H.
    apply in_app_iff.
    destruct H as [H|H]; apply existsb_exists in H as (y & Hy & E);
      apply bool_decide_eq_true in E; subst; auto. }
  rewrite forallb_forall in Hall. specialize (Hall e Hin).
  rewrite !andb_true_iff, !negb_true_iff in Hall.
  destruct Hall as [[Hs Hsl] Hl]. apply bool_decide_eq_true in Hl.
  destruct (list_ascii_of_string e) as [|c x] eqn:He; [done|].
  apply andb_true_iff in Hs as [Hc Hx]. apply bool_decide_eq_true in Hc. subst c.
  rewrite negb_true_iff in Hx.
  exists x. split_and!; [done| | |done].
  - intros Hd. assert (existsb (fun a => bool_decide (a = NodePath.dot)) x = true)
      by (apply existsb_exists; exists NodePath.dot; split; [done|by rewrite bool_decide_eq_true]).
    congruence.
  - unfold NodePath.no_slash. rewrite He. intros Hd.
    assert (existsb (fun a => bool_decide (a = NodePath.slash)) (NodePath.dot :: x) = true)
      by (apply existsb_exists; exists NodePath.slash; split; [done|by rewrite bool_decide_eq_true]).
    congruence.
Qed.

Lemma no_slash_suffixStr (k : nat) : NodePath.no_slash (suffixStr k).
Proof.
  destruct k; simpl; [by intros []|]. apply no_slash_cons; [done|apply no_slash_pretty].
Qed.

Lemma candidate_name_plain (env : Env) (cand : Candidate) (ext : string) (k : nat) :
  NodePath.no_slash ext ->
  let name := typePrefix ext +:+ "_" +:+ formatDate env cand +:+ suffixStr k +:+ ext in
  name <> "" /\ NodePath.no_slash name.
Proof.
  intros Hext name. split.
  - unfold name, typePrefix. by case_match.
  - unfold name. rewrite !no_slash_app. split_and!; auto using no_slash_formatDate, no_slash_suffixStr.
    + unfold typePrefix. case_match; by intros [E|[E|[E|[]]]].
    + by intros [E|[]].
Qed.

Lemma process_file_renamed_inv (env : Env) (rf : string -> string -> bool) (st st' : St)
  (fp a np : string) :
  process_file env rf st fp = Some (Renamed a np, st') ->
  a = fp /\ isFileSupported (Str.to_lower (NodePath.extname fp)) = true
  /\ exists cand n,
       getCaptureDate env (exif_read (st_fs st) fp) = Some cand
       /\ getNewFilePath env cand (Str.to_lower (NodePath.extname fp)) fp (st_fs st) = Some (Some np)
       /\ st_fs st !! fp = Some n
       /\ st_fs st' = <[np := n]> (delete fp (st_fs st)).
Proof.
  unfold process_file.
  destruct (isFileSupported _) eqn:Hsup; [|done]. simpl.
  destruct (getCaptureDate env (exif_read (st_fs st) fp)) as [cand|] eqn:Hc; [|done].
  destruct (getNewFilePath env cand _ fp (st_fs st)) as [[np'|]|] eqn:Hn; try done.
  unfold safeRenameFile, fs_rename, emit; cbn [st_fs].
  destruct (st_fs st !! fp) as [n|] eqn:Hfp; [|done].
  destruct (rf fp np'); [done|]. intros [= -> -> <-].
  split; [done|]. split; [done|]. exists cand, n. done.
Qed.

(** the renamed file: same folder, and the lower-cased extension *)
Lemma renamed_target_shape (env : Env) (rf : string -> string -> bool) (st st' : St)
  (fp np rest name : string) :
  process_file env rf st fp = Some (Renamed fp np, st') ->
  fp = NodePath.join (String "/" rest) name -> Walk.plain_name name = true ->
  NodePath.dirname np = NodePath.dirname fp
  /\ NodePath.extname np = Str.to_lower (NodePath.extname fp).
Proof.
  intros H -> Hname.
  apply process_file_renamed_inv in H as (_ & Hsup & cand & n & _ & Hn & _).
  destruct (getNewFilePath_free_inv _ _ _ _ _ _ Hn) as (orig & k & _ & -> & _).
  apply plain_name_no_slash in Hname as [Hne Hns].
  destruct (supported_ext_shape _ Hsup) as (x & Hx & Hdot & Hes & _).
  destruct (candidate_name_plain env cand (Str.to_lower (NodePath.extname (NodePath.join (String "/" rest) name))) k Hes) as [Hne' Hns'].
  unfold candidate_path. rewrite !dirname_join by done.
  split; [done|].
  rewrite <- !str_app_assoc.
  unfold typePrefix in Hns' |- *. case_match;
    (eapply extname_join; [reflexivity|done| |done|exact Hx|done]);
    rewrite !no_slash_app in Hns'; rewrite !no_slash_app; tauto.
Qed.

(** A file renamed by [#renameFiles] stays in its folder, and its new
    name ends in the lower-cased extension of its old name; the file is
    taken at an absolute path of a folder, its name as [readdir] gives it. *)
Theorem renamed_in_same_folder (env : Env) (rf : string -> string -> bool) (st st' : St)
  (fp np rest name : string) :
  process_file env rf st fp = Some (Renamed fp np, st') ->
  fp = NodePath.join (String "/" rest) name -> Walk.plain_name name = true ->
  NodePath.dirname np = NodePath.dirname fp
  /\ NodePath.extname np = Str.to_lower (NodePath.extname fp).
Proof. apply renamed_target_shape. Qed.

Lemma realpath_file (fs : FileSystem) (p r : string) :
  realpath fs p = Some r -> exists m, fs !! r = Some (NFile m).
Proof.
  unfold realpath. destruct (fs !! p) as [[m|t]|] eqn:E; try done.
  - intros [= <-]. eauto.
  - destruct (fs !! t) as [[m|]|] eqn:E'; try done. intros [= <-]. eauto.
Qed.

Lemma realpath_none_not_file (fs : FileSystem) (p : string) (m : option Metadata) :
  realpath fs p = None -> fs !! p <> Some (NFile m).
Proof. unfold realpath. intros H E. rewrite E in H. done. Qed.

Lemma not_exists_realpath (fs : FileSystem) (p : string) :
  existsSync fs p = false -> realpath fs p = None.
Proof. unfold existsSync. by destruct (realpath fs p). Qed.

(** a path other than both ends of a rename, resolving neither to its
    source nor to its free target, resolves as before *)
Lemma realpath_after_rename (fs : FileSystem) (fp np p r : string) (n : node) :
  fs !! fp = Some n -> realpath fs np = None -> p <> fp -> p <> np ->
  realpath fs p = Some r -> r <> fp ->
  realpath (<[np := n]> (delete fp fs)) p = Some r.
Proof.
  intros Hfp Hnp Hp1 Hp2 Hr Hr1.
  assert (Hr2 : r <> np).
  { intros ->. destruct (realpath_file _ _ _ Hr) as [m Hm].
    by apply (realpath_none_not_file _ _ m) in Hnp. }
  revert Hr. unfold realpath.
  rewrite lookup_insert_ne, lookup_delete_ne by congruence.
  destruct (fs !! p) as [[m|t]|]; try done.
  destruct (decide (t = np)) as [->|Ht1].
  - destruct (fs !! np) as [[m|]|] eqn:E; try done. intros [= <-]. done.
  - destruct (decide (t = fp)) as [->|Ht2].
    + destruct (fs !! fp) as [[m|]|] eqn:E; try done. intros [= <-]. done.
    + by rewrite lookup_insert_ne, lookup_delete_ne by congruence.
Qed.

Lemma exif_read_realpath_eq (fs fs' : FileSystem) (p p' r : string) :
  realpath fs p = Some r -> realpath fs' p' = Some r -> fs' !! r = fs !! r ->
  exif_read fs' p' = exif_read fs p.
Proof. unfold exif_read. intros -> -> ->. done. Qed.

(** A file just renamed by [#renameFiles] is left alone by a second run
    over its new path: it reads the metadata and skips the file as already
    named, whatever the rename calls of the second run would do. *)
Theorem second_run_skips_renamed (env : Env) (rf rf' : string -> string -> bool) (st st' : St)
  (fp np rest name : string) :
  process_file env rf st fp = Some (Renamed fp np, st') ->
  fp = NodePath.join (String "/" rest) name -> Walk.plain_name name = true ->
  process_file env rf' st' np = Some (SkippedAlreadyNamed, skip (emit st' (EvRead np))).
Proof.
  intros H Hfp Hname.
  destruct (renamed_target_shape _ _ _ _ _ _ _ _ H Hfp Hname) as [Hdir Hext].
  apply process_file_renamed_inv in H as (_ & Hsup & cand & n & Hc & Hn & Hfpn & Hfs').
  destruct (getNewFilePath_free_inv _ _ _ _ _ _ Hn) as (orig & k & Ho & Hnp & Hfree & Hpass).
  set (ext := Str.to_lower (NodePath.extname fp)) in *.
  set (fd := formatDate env cand) in *.
  set (fs := st_fs st) in *.
  set (fs' := st_fs st') in *.
  destruct (supported_ext_shape _ Hsup) as (_ & _ & _ & _ & Hlow).
  apply not_exists_realpath in Hfree.
  assert (Hne : np <> fp).
  { intros E. rewrite E in Hfree. congruence. }
  (* where the renamed file resolves now *)
  assert (Horig' : exists orig', realpath fs' np = Some orig'
                   /\ exif_read fs' np = exif_read fs fp
                   /\ forall r, (exists m, fs !! r = Some (NFile m)) -> r <> orig -> r <> fp ->
                                r <> np -> r <> orig').
  { destruct n as [m|t].
    - assert (orig = fp) as -> by (revert Ho; unfold realpath; rewrite Hfpn; congruence).
      assert (Hnp' : realpath fs' np = Some np).
      { unfold realpath. by rewrite Hfs', lookup_insert_eq. }
      exists np. split_and!; auto.
      unfold exif_read. rewrite Hnp', Ho, Hfpn, Hfs', lookup_insert_eq. done.
    - assert (Ht : realpath fs fp = Some t /\ exists m, fs !! t = Some (NFile m)).
      { revert Ho. unfold realpath. rewrite Hfpn.
        destruct (fs !! t) as [[m|]|] eqn:E; try done. intros [= <-]. eauto. }
      destruct Ht as [Ht [m Hm]]. rewrite Ht in Ho. injection Ho as <-.
      assert (t <> np) by (intros ->; by apply (realpath_none_not_file _ _ m) in Hfree).
      assert (t <> fp) by (intros ->; congruence).
      assert (Ht' : realpath fs' np = Some t).
      { unfold realpath. rewrite Hfs', lookup_insert_eq.
        by rewrite lookup_insert_ne, lookup_delete_ne, Hm by congruence. }
      exists t. split_and!; auto.
      apply (exif_read_realpath_eq _ _ _ _ t); [done|done|].
      rewrite Hfs'. by rewrite lookup_insert_ne, lookup_delete_ne by congruence. }
  destruct Horig' as (orig' & Ho' & Hread & Hdiff).
  (* the candidates of the second run are those of the first *)
  assert (Hcand : forall i, candidate_path fd ext np i = candidate_path fd ext fp i).
  { intros i. unfold candidate_path. by rewrite Hdir. }
  assert (Hpass' : forall i, (i < k)%nat -> passed fs' fd ext np orig' i).
  { intros i Hi. destruct (Hpass i Hi) as (E & Hp1 & Hp2).
    destruct (existsSync_realpath _ _ E) as [r Hr].
    assert (Hp3 : candidate_path fd ext fp i <> np).
    { rewrite Hnp. intros Hij. apply candidate_path_inj in Hij. lia. }
    assert (Hr1 : r <> orig) by congruence.
    assert (Hr2 : r <> fp).
    { intros ->. destruct (realpath_file _ _ _ Hr) as [m Hm].
      destruct n as [m'|t]; [|congruence].
      revert Ho. unfold realpath. rewrite Hfpn. congruence. }
    assert (Hr3 : r <> np).
    { intros ->. destruct (realpath_file _ _ _ Hr) as [m Hm].
      by apply (realpath_none_not_file _ _ m) in Hfree. }
    assert (Hr' : realpath fs' (candidate_path fd ext fp i) = Some r).
    { rewrite Hfs'. by eapply realpath_after_rename. }
    unfold passed. rewrite Hcand. split_and!.
    - unfold existsSync. by rewrite Hr'.
    - done.
    - rewrite Hr'. intros [= E']. revert E'. apply Hdiff; auto. by apply realpath_file in Hr. }
  (* the second run *)
  unfold process_file.
  rewrite Hext. fold ext. rewrite Hlow, Hsup. simpl.
  unfold emit at 1. cbn [st_fs]. fold fs'. rewrite Hread.
  rewrite Hc.
  rewrite (getNewFilePath_unfold _ _ _ _ orig') by done.
  rewrite (search_already fs' fd ext np orig' _ 0 k).
  - done.
  - intros i Hi. apply Hpass'. lia.
  - rewrite Hcand, <- Hnp. unfold existsSync. by rewrite Ho'.
  - left. by rewrite Hcand.
  - split; [lia|]. simpl.
    assert ((k <= size fs')%nat); [|lia].
    apply (passed_bound fs' fd ext np). intros i Hi. by destruct (Hpass' i Hi).
Qed.

Lemma file_contents_rename (fs : FileSystem) (fp np : string) (n : node) :
  fs !! fp = Some n -> existsSync fs np = false -> np <> fp ->
  file_contents (<[np := n]> (delete fp fs)) ≡ₚ file_contents fs.
Proof.
  intros Hfp Hnp Hne. apply not_exists_realpath in Hnp.
  assert (HG : regular_files fs !! np = None).
  { unfold regular_files. apply map_lookup_filter_None.
    destruct (fs !! np) as [[m|t]|] eqn:E; [|right; intros x [= <-]; done|by left].
    by apply (realpath_none_not_file _ _ m) in Hnp. }
  unfold file_contents, regular_files in *. rewrite map_filter_insert.
  case_decide as Hreg.
  - rewrite map_filter_delete, map_to_list_insert.
    2:{ by rewrite lookup_delete_ne by congruence. }
    rewrite <- (map_to_list_delete (filter _ fs) fp n).
    + done.
    + by apply map_lookup_filter_Some.
  - assert (HF : filter (fun kv : string * node => is_regular kv.2 = true) fs !! fp = None).
    { apply map_lookup_filter_None. right. intros x Hx. rewrite Hfp in Hx. injection Hx as <-. by simpl in *. }
    rewrite !map_filter_delete.
    rewrite (delete_id _ fp) by done. by rewrite (delete_id _ np) by done.
Qed.

(** [#renameFiles] moves files but never loses, duplicates or alters
    one: the regular files' contents after the run are those before it,
    up to order. *)
Theorem renameFiles_keeps_files (env : Env) (rf : string -> string -> bool) (files : list string)
  (st : St) :
  file_contents (st_fs (renameFiles env rf files st).1) ≡ₚ file_contents (st_fs st).
Proof.
  revert st. induction files as [|fp files IH]; intros st; simpl; [done|].
  destruct (process_file env rf st fp) as [[o st']|] eqn:Hp; [|done].
  rewrite IH.
  destruct (process_file_cases _ _ _ _ _ _ Hp)
    as [(_ & -> & _)|[(_ & -> & _)|(np & Hfree & Hne & _ & [(_ & n & Hn & ->)|(_ & ->)])]]; try done.
  by apply file_contents_rename.
Qed.

Module LoggerFacts.
Import Logger.

Lemma saveToLogs_cons (t : string) (a : arg) (rest : list arg) :
  saveToLogs t (a :: rest)
  = saveToLogs (match a with
                | AStr s => if color_template_test s then t else t +:+ s +:+ "\n"
                | AOther shown => t +:+ shown +:+ "\n"
                end) rest.
Proof. reflexivity. Qed.

(** Each colour function adds to the log text exactly what [saveToLogs]
    keeps of its message, the message and a newline unless it is itself a
    colour template, and never the colour template it passes to
    [console.log]. *)
Theorem colored_message_logged (t : string) (m : arg) :
  let expected := match m with
                  | AStr s => if color_template_test s then t else t +:+ s +:+ "\n"
                  | AOther shown => t +:+ shown +:+ "\n"
                  end in
  cyan t m = expected /\ green t m = expected /\ yellow t m = expected
  /\ red t m = expected /\ magenta t m = expected.
Proof.
  intros expected.
  unfold cyan, green, yellow, red, magenta, log.
  rewrite !saveToLogs_cons.
  assert (forall code, In code ["96"; "92"; "93"; "91"; "95"] ->
          color_template_test (template code) = true) as Ht.
  { intros code Hc. repeat destruct Hc as [<-|Hc]; [..|done]; vm_compute; reflexivity. }
  rewrite !Ht by (simpl; tauto). split_and!; reflexivity.
Qed.
End LoggerFacts.

Module L10nFacts.
Import L10n.

(** [L10n.get] returns its key exactly for the keys without a
    translation, and returns an empty text only for the empty key. *)
Theorem get_falls_back_to_key (lang : Language) (key : string) :
  (get lang key = key <-> Translations !! key = None) /\ (get lang key = "" <-> key = "").
Proof.
  assert (Htab : map_Forall (fun k tr => k <> "" /\ tr_ru tr <> "" /\ tr_en tr <> ""
                                         /\ tr_ru tr <> k /\ tr_en tr <> k)
                   Translations).
  { apply (bool_decide_unpack _). vm_compute. reflexivity. }
  unfold get. destruct (Translations !! key) as [tr|] eqn:E.
  - destruct (Htab key tr E) as (H0 & H1 & H2 & H3 & H4).
    destruct lang; rewrite bool_decide_eq_false_2 by done; split; split; done.
  - split; done.
Qed.
End L10nFacts.

Lemma extname_no_inner_dot (rest : string) (c : ascii) (n : string) :
  NodePath.no_slash (String c n) -> ~ In NodePath.dot (list_ascii_of_string n) ->
  NodePath.extname (NodePath.join (String "/" rest) (String c n)) = "".
Proof.
  intros Hs Hd. unfold NodePath.extname.
  destruct (join_split rest (String c n)) as [L1 HL]. rewrite HL.
  destruct (exists_last (l:=list_ascii_of_string (String c n))) as [l [c' Hlc]]; [done|].
  assert (Hc : c' <> NodePath.slash) by (intros ->; apply Hs; rewrite Hlc; apply in_app_iff; right; by left).
  rewrite Hlc, app_comm_cons, app_assoc, strip_last by done.
  rewrite <- app_assoc, <- app_comm_cons, <- Hlc.
  rewrite after_last_slash_last by done. simpl.
  rewrite from_last_dot_none by done. by case_bool_decide.
Qed.

(** A file whose name has no dot after its first character, such as
    [README] or [.jpg], has no extension for [path.extname]: [#renameFiles]
    skips it as unsupported without reading it. *)
Theorem no_extension_unsupported (env : Env) (rf : string -> string -> bool) (st : St)
  (rest name : string) :
  Walk.plain_name name = true ->
  existsb (fun c => bool_decide (c = NodePath.dot)) (tail (list_ascii_of_string name)) = false ->
  process_file env rf st (NodePath.join (String "/" rest) name) = Some (SkippedUnsupported, skip st).
Proof.
  intros Hp Hd. apply plain_name_no_slash in Hp as [Hne Hs].
  destruct name as [|c n]; [done|].
  assert (~ In NodePath.dot (list_ascii_of_string n)).
  { intros Hin. assert (existsb (fun c => bool_decide (c = NodePath.dot)) (list_ascii_of_string n) = true)
      by (apply existsb_exists; exists NodePath.dot; split; [done|by rewrite bool_decide_eq_true]).
    simpl in Hd. congruence. }
  unfold process_file. rewrite extname_no_inner_dot by done. reflexivity.
Qed.

(* ================================================================= *)
(** ** Instances of the properties above *)

Lemma photos_listing_walk :
  Walk.walkDir Str.to_lower "/photos" photos_listing []
  = ["/photos/a.jpg"; "/photos/2024/b.mp4"; "/photos/link.jpg"].
Proof. vm_compute. reflexivity. Qed.

Lemma walkDir_no_duplicates_witness :
  Walk.listing_ok photos_listing = true
  /\ NoDup (Walk.walkDir Str.to_lower "/photos" photos_listing []).
Proof.
  split; [vm_compute; reflexivity|].
  apply WalkFacts.walkDir_no_duplicates. vm_compute. reflexivity.
Defined.

Lemma process_file_effects_witness :
  let fp := "/r/DSC002.JPG" in
  let o := Renamed fp jan1_name in
  let st := start fs_upper in
  let st' := st_upper_after in
  process_file moscow rename_ok st fp = Some (o, st')
  /\ ((o = SkippedUnsupported /\ st_fs st' = st_fs st /\ st_events st' = st_events st)
      \/ ((o = SkippedNoDate \/ o = SkippedAlreadyNamed) /\ st_fs st' = st_fs st
          /\ st_events st' = st_events st ++ [EvRead fp])
      \/ (exists np, existsSync (st_fs st) np = false /\ np <> fp
          /\ st_events st' = st_events st ++ [EvRead fp; EvRename fp np]
          /\ ((o = Renamed fp np
               /\ exists n, st_fs st !! fp = Some n /\ st_fs st' = <[np := n]> (delete fp (st_fs st)))
              \/ (o = FailedRename fp np /\ st_fs st' = st_fs st)))).
Proof.
  intros fp o st st'.
  assert (H : process_file moscow rename_ok st fp = Some (o, st')) by (vm_compute; reflexivity).
  split; [exact H|].
  exact (process_file_effects moscow rename_ok st st' fp o H).
Defined.

Lemma renamed_in_same_folder_witness :
  process_file moscow rename_ok (start fs_upper) "/r/DSC002.JPG"
    = Some (Renamed "/r/DSC002.JPG" jan1_name, st_upper_after)
  /\ NodePath.dirname jan1_name = NodePath.dirname "/r/DSC002.JPG"
  /\ NodePath.extname jan1_name = Str.to_lower (NodePath.extname "/r/DSC002.JPG").
Proof.
  split; [vm_compute; reflexivity|].
  apply (renamed_in_same_folder moscow rename_ok (start fs_upper) st_upper_after
           "/r/DSC002.JPG" jan1_name "r" "DSC002.JPG").
  - vm_compute. reflexivity.
  - vm_compute. reflexivity.
  - vm_compute. reflexivity.
Defined.

Lemma second_run_skips_renamed_witness :
  process_file moscow rename_ok (start fs_upper) "/r/DSC002.JPG"
    = Some (Renamed "/r/DSC002.JPG" jan1_name, st_upper_after)
  /\ process_file moscow rename_ok st_upper_after jan1_name
     = Some (SkippedAlreadyNamed, skip (emit st_upper_after (EvRead jan1_name))).
Proof.
  split; [vm_compute; reflexivity|].
  apply (second_run_skips_renamed moscow rename_ok rename_ok (start fs_upper) st_upper_after
           "/r/DSC002.JPG" jan1_name "r" "DSC002.JPG").
  - vm_compute. reflexivity.
  - vm_compute. reflexivity.
  - vm_compute. reflexivity.
Defined.

Lemma no_extension_unsupported_witness :
  Walk.plain_name ".jpg" = true
  /\ process_file moscow rename_ok (start fs_named) (NodePath.join "/r" ".jpg")
     = Some (SkippedUnsupported, skip (start fs_named)).
Proof.
  split; [vm_compute; reflexivity|].
  apply no_extension_unsupported.
  - vm_compute. reflexivity.
  - vm_compute. reflexivity.
Defined.
